(** * Fairway Content Library: the query engine of [src/App.js]

    A shallow embedding of the catalog loader, the filter / sort /
    paginate pipeline, the facet tallies and the selection toggle of
    [App.js], with the properties the design document states about them.

    Modelling conventions.
    - A JavaScript string is a [string], the sequence of its characters:
      [includes], [join], [+] and [===] work on that sequence.  What
      depends on the Unicode tables, that is [toLowerCase], [trim] and
      [split(/\s+/)], is taken from the runtime.
    - A JavaScript number is the rational it denotes, with [None] for
      [NaN].  An arithmetic operation on doubles is the exact operation
      followed by [Double.round], the rounding to the nearest double.
      Where only the sign of a difference of two doubles is read, as by
      [sort], the exact difference stands for the rounded one: the two
      have the same sign.
    - An absent property ([undefined]) is [None] in an [option] field.
    - [Date] parsing, the local calendar year and the clock belong to the
      runtime as well; all of it is gathered in a [DateEnv]. *)

From Stdlib Require Import ZArith QArith Qround Qminmax Lia Lqa Bool List.
From Stdlib Require Import Ascii String Permutation Sorted DecimalString.
From Stdlib Require Import DecimalZ DecimalPos.
From stdpp Require Import gmap strings list fin_maps.

Set Warnings "-register-all".

Local Open Scope string_scope.
Local Open Scope list_scope.

(** ** Strings *)

Module JsString.

(** [String.prototype.includes]: [needle] occurs in [haystack]. *)
Fixpoint includes (haystack needle : string) : bool :=
  String.prefix needle haystack ||
  match haystack with
  | EmptyString => false
  | String _ t => includes t needle
  end.

(** [Array.prototype.join] on an array of strings. *)
Fixpoint join (sep : string) (l : list string) : string :=
  match l with
  | [] => EmptyString
  | [x] => x
  | x :: l' => x ++ sep ++ join sep l'
  end.

(** The character [c] is one of [s]. *)
Fixpoint has_char (c : ascii) (s : string) : bool :=
  match s with
  | EmptyString => false
  | String d t => Ascii.eqb c d || has_char c t
  end.

End JsString.

Import JsString.

(** ** Content items *)

(** The item shape documented at the top of [App.js].  A field of type
    [option _] is [None] when the property is absent from the JSON. *)
Record item := {
  id : Z;
  slug : string;
  title : option string;
  summary : option string;
  industries : option (list string);
  personas : option (list string);
  topics : option (list string);
  tags : option (list string);
  funnel_stage : option string;
  release_date : option string;
  version : Z;
  read_time_min : option Q;
  words : option Z;
  content_type : option string;
  file_url : string;
  cover_url : option string;
  duration_sec : option Z
}.

(** [x || ""] on an optional string, [x || []] on an optional array. *)
Definition or_empty (x : option string) : string :=
  match x with Some s => s | None => "" end.

Definition or_nil (x : option (list string)) : list string :=
  match x with Some l => l | None => [] end.

(** The array literal that [fullTextMatch] joins. *)
Definition fullText_fields (p : item) : list string :=
  [or_empty (title p); or_empty (summary p)]
    ++ or_nil (topics p) ++ or_nil (tags p)
    ++ or_nil (personas p) ++ or_nil (industries p).

Definition newline : string := String (ascii_of_nat 10) EmptyString.

(** ** Numbers, completions and the runtime *)

(** A JavaScript number: the rational it denotes, or [None] for [NaN]. *)
Definition num := option Q.

(** Doubles: the binary64 format, rounding to nearest with ties to even.
    Magnitudes from [2^1024] on, where a double is infinite, are not
    modelled; the quantities rounded here stay far below. *)
Module Double.

(** The largest [k] with [2^k <= n/d]. *)
Definition ilog2 (n d : positive) : Z :=
  let k := (Z.log2 (Zpos n) - Z.log2 (Zpos d))%Z in
  let below :=
    if (0 <=? k)%Z then (Zpos d * 2 ^ k <=? Zpos n)%Z
    else (Zpos d <=? Zpos n * 2 ^ (- k))%Z in
  if below then k else (k - 1)%Z.

(** The integer nearest to [num/den], a tie going to the even one. *)
Definition nearest_even (num den : Z) : Z :=
  let q := (num / den)%Z in
  let r := (num mod den)%Z in
  if (2 * r <? den)%Z then q
  else if (den <? 2 * r)%Z then (q + 1)%Z
  else if Z.even q then q else (q + 1)%Z.

(** A positive rational rounded to a multiple of [2^e], where [e] leaves
    53 significant bits, and is [-1074] in the subnormal range. *)
Definition round_pos (n d : positive) : Q :=
  let e := Z.max (ilog2 n d - 52) (-1074) in
  if (0 <=? e)%Z
  then inject_Z (nearest_even (Zpos n) (Zpos d * 2 ^ e) * 2 ^ e)
  else Qmake (nearest_even (Zpos n * 2 ^ (- e)) (Zpos d)) (Z.to_pos (2 ^ (- e))).

Definition round (x : Q) : Q :=
  match Qnum x with
  | Z0 => 0%Q
  | Zpos n => round_pos n (Qden x)
  | Zneg n => (- round_pos n (Qden x))%Q
  end.

End Double.

Module JsNum.

Definition of_Z (z : Z) : num := Some (inject_Z z).

(** The exact difference, sum and quotient.  [sub] also serves for a
    difference of two doubles of which only the sign is read. *)
Definition sub (a b : num) : num :=
  match a, b with
  | Some x, Some y => Some (x - y)%Q
  | _, _ => None
  end.

Definition add (a b : num) : num :=
  match a, b with
  | Some x, Some y => Some (x + y)%Q
  | _, _ => None
  end.

Definition div (a b : num) : num :=
  match a, b with
  | Some x, Some y => if Qeq_bool y 0 then None else Some (x / y)%Q
  | _, _ => None
  end.

(** [Math.max] of two numbers: [NaN] as soon as one of them is. *)
Definition max (a b : num) : num :=
  match a, b with
  | Some x, Some y => Some (Qmax x y)
  | _, _ => None
  end.

(** Truthiness of a number: neither zero nor [NaN]. *)
Definition truthy (a : num) : bool :=
  match a with
  | Some x => negb (Qeq_bool x 0)
  | None => false
  end.

(** [a || b] *)
Definition or (a b : num) : num := if truthy a then a else b.

(** The double nearest to a number. *)
Definition rounded (a : num) : num :=
  match a with
  | Some x => Some (Double.round x)
  | None => None
  end.

(** [a - b], [a + b] and [a / b] as the doubles they evaluate to. *)
Definition fsub (a b : num) : num := rounded (sub a b).
Definition fadd (a b : num) : num := rounded (add a b).
Definition fdiv (a b : num) : num := rounded (div a b).

End JsNum.

(** The result of evaluating code that may throw. *)
Inductive completion (A : Type) : Type :=
  | Normal (a : A)
  | Throw (e : string).
Arguments Normal {A} a.
Arguments Throw {A} e.

(** Sequencing: a [Throw] skips the rest.  [x ← c; k] is the notation. *)
#[export] Instance completion_bind : MBind completion :=
  fun A B (k : A -> completion B) (c : completion A) =>
    match c with
    | Normal a => k a
    | Throw e => Throw e
    end.

#[export] Instance completion_ret : MRet completion := fun A a => Normal a.

(** [try { body } catch { handler }] *)
Definition try_catch {A} (body : completion A) (handler : string -> A) : A :=
  match body with
  | Normal a => a
  | Throw e => handler e
  end.

(** What the engine takes from the runtime.
    - The time value (milliseconds since the epoch) that [new Date(s)]
      parses from a string, [None] for an Invalid Date; and the local
      calendar year of a time value.
    - The clock: [Date_now] is what [Date.now()] returns when the sort
      starts, [Date_now_nth n] what its [n]-th call during the sort
      returns (counting from 0).
    - The string functions that depend on the Unicode tables:
      [s.toLowerCase()], [s.trim()] and [s.split(/\s+/)]. *)
Record DateEnv := {
  Date_parse : string -> option Z;
  LocalYear : Z -> Z;
  Date_now : Z;
  Date_now_nth : nat -> Z;
  toLowerCase : string -> string;
  trim : string -> string;
  split_space : string -> list string
}.

Module JsDate.

(** [new Date(v)] for a string or [undefined]: the time value.  The
    constructor returns an Invalid Date; it does not throw. *)
Definition new_Date (env : DateEnv) (v : option string) : option Z :=
  match v with
  | Some s => Date_parse env s
  | None => None
  end.

(** [d.getTime()], also the number a Date converts to under [-]. *)
Definition getTime (d : option Z) : num :=
  match d with
  | Some t => JsNum.of_Z t
  | None => None
  end.

(** [d.getFullYear()]: [NaN] on an Invalid Date. *)
Definition getFullYear (env : DateEnv) (d : option Z) : option Z :=
  match d with
  | Some t => Some (LocalYear env t)
  | None => None
  end.

(** [String(n)] for an integral number or [NaN]. *)
Definition String_of (n : option Z) : string :=
  match n with
  | Some z => NilZero.string_of_int (Z.to_int z)
  | None => "NaN"
  end.

(** [new Date(b) - new Date(a)] *)
Definition minus (env : DateEnv) (b a : option string) : num :=
  JsNum.sub (getTime (new_Date env b)) (getTime (new_Date env a)).

End JsDate.

(** [computeYear] of the source.  The three calls in the [try] block
    complete normally on every string, so the block is a [Normal]
    completion. *)
Definition computeYear (env : DateEnv) (iso : option string) : string :=
  try_catch
    (Normal (JsDate.String_of (JsDate.getFullYear env (JsDate.new_Date env iso))))
    (fun _ => "").

(** ** Free text *)

(** [includesI] of the source. *)
Definition includesI (env : DateEnv) (haystack needle : string) : bool :=
  includes (toLowerCase env haystack) (toLowerCase env needle).

Definition fullTextMatch (env : DateEnv) (p : item) (q : string) : bool :=
  if (q =? "")%string then true
  else
    let fields := join (" " ++ newline ++ " ") (fullText_fields p) in
    includesI env fields q.

(** ** Arrays *)

Module JsArray.

(** [arr.includes(v)] on an array of strings. *)
Definition includes (arr : list string) (v : string) : bool :=
  existsb (String.eqb v) arr.

(** [arr.includes(v)] when [v] may be [undefined]; the selections hold
    strings only. *)
Definition includes_opt (arr : list string) (v : option string) : bool :=
  match v with
  | Some s => includes arr s
  | None => false
  end.

(** [arr.every(f)] *)
Definition every {A} (f : A -> bool) (arr : list A) : bool := forallb f arr.

(** [arr.length] used as a condition. *)
Definition nonempty {A} (arr : list A) : bool :=
  negb (Nat.eqb (List.length arr) 0).

(** The number the sort compares with: [NaN] counts as [+0]. *)
Definition SortCompare {A} (comparefn : A -> A -> num) (x y : A) : Q :=
  match comparefn x y with
  | Some v => v
  | None => 0%Q
  end.

(** [x] goes before [y] unless the comparison is positive. *)
Definition before {A} (comparefn : A -> A -> num) (x y : A) : bool :=
  Qle_bool (SortCompare comparefn x y) 0.

Fixpoint insert {A} (comparefn : A -> A -> num) (x : A) (l : list A) : list A :=
  match l with
  | [] => [x]
  | y :: l' =>
      if before comparefn x y then x :: l
      else y :: insert comparefn x l'
  end.

(** [arr.sort(comparefn)]: the stable sort.  For a comparison function
    that is consistent on the elements, this is the result the language
    requires of every engine. *)
Fixpoint sort {A} (comparefn : A -> A -> num) (arr : list A) : list A :=
  match arr with
  | [] => []
  | x :: l => insert comparefn x (sort comparefn l)
  end.

(** [arr.sort(comparefn)] for a comparison function whose result depends
    on when it is called: [comparefn k] is its [k]-th call, counting from
    [k0].  The pair is the number of calls made so far and the array. *)
Fixpoint insert_by_call {A} (comparefn : nat -> A -> A -> num) (k : nat)
    (x : A) (l : list A) : nat * list A :=
  match l with
  | [] => (k, [x])
  | y :: l' =>
      if before (comparefn k) x y then (S k, x :: l)
      else
        let (k', r) := insert_by_call comparefn (S k) x l' in
        (k', y :: r)
  end.

Fixpoint sort_by_call {A} (comparefn : nat -> A -> A -> num) (k0 : nat)
    (arr : list A) : nat * list A :=
  match arr with
  | [] => (k0, [])
  | x :: l =>
      let (k, s) := sort_by_call comparefn k0 l in
      insert_by_call comparefn k x s
  end.

(** [arr.slice(start, end)] with integral arguments. *)
Definition slice {A} (arr : list A) (start end_ : Z) : list A :=
  let len := Z.of_nat (List.length arr) in
  let k := if (start <? 0)%Z then Z.max (len + start) 0 else Z.min start len in
  let final := if (end_ <? 0)%Z then Z.max (len + end_) 0 else Z.min end_ len in
  firstn (Z.to_nat (final - k)) (skipn (Z.to_nat k) arr).

(** [arr.flatMap(f)] *)
Definition flatMap {A B} (f : A -> list B) (arr : list A) : list B :=
  List.concat (List.map f arr).

End JsArray.

(** ** Query state *)

(** The [useState] cells of [App] that drive the query engine. *)
Module State.
Record t := {
  q : string;
  ctype : list string;
  industries : list string;
  personas : list string;
  topics : list string;
  tags : list string;
  stage : list string;
  year : list string;
  sort : string;
  page : Z;
  pageSize : Z
}.
End State.

(** ** Filtering *)

(** One check of the filter callback per facet dimension.  Each is [true]
    when the callback does not [return false] at that check. *)
Definition pass_multi (selected : list string) (labels : option (list string)) : bool :=
  negb (JsArray.nonempty selected &&
        negb (JsArray.every (fun v => JsArray.includes (or_nil labels) v) selected)).

Definition pass_single (selected : list string) (value : option string) : bool :=
  negb (JsArray.nonempty selected && negb (JsArray.includes_opt selected value)).

Definition pass_year (env : DateEnv) (selected : list string) (p : item) : bool :=
  negb (JsArray.nonempty selected &&
        negb (JsArray.includes selected (computeYear env (release_date p)))).

(** The callback of [items.filter] in [filtered]. *)
Definition keep (env : DateEnv) (st : State.t) (p : item) : bool :=
  let qTrim := trim env (State.q st) in
  if negb (fullTextMatch env p qTrim) then false
  else if negb (pass_single (State.ctype st) (content_type p)) then false
  else if negb (pass_multi (State.industries st) (industries p)) then false
  else if negb (pass_multi (State.personas st) (personas p)) then false
  else if negb (pass_multi (State.topics st) (topics p)) then false
  else if negb (pass_multi (State.tags st) (tags p)) then false
  else if negb (pass_single (State.stage st) (funnel_stage p)) then false
  else if negb (pass_year env (State.year st) p) then false
  else true.

Definition filtered (env : DateEnv) (items : list item) (st : State.t) : list item :=
  List.filter (keep env st) items.

(** ** Sorting *)

(** [a.read_time_min || 0] *)
Definition read_time (p : item) : num :=
  JsNum.or (read_time_min p) (Some 0%Q).

Definition by_newest (env : DateEnv) (a b : item) : num :=
  JsDate.minus env (release_date b) (release_date a).

Definition by_oldest (env : DateEnv) (a b : item) : num :=
  JsDate.minus env (release_date a) (release_date b).

Definition by_shortest (env : DateEnv) (a b : item) : num :=
  JsNum.or (JsNum.sub (read_time a) (read_time b))
           (JsDate.minus env (release_date b) (release_date a)).

Definition by_longest (env : DateEnv) (a b : item) : num :=
  JsNum.or (JsNum.sub (read_time b) (read_time a))
           (JsDate.minus env (release_date b) (release_date a)).

(** [Array.isArray(x) ? x.join(" ") : ""] *)
Definition joined (x : option (list string)) : string :=
  match x with
  | Some l => join " " l
  | None => ""
  end.

(** The [text] that [score] builds for an item. *)
Definition score_text (p : item) : string :=
  or_empty (title p) ++ newline ++
  or_empty (summary p) ++ newline ++
  joined (topics p) ++ newline ++
  joined (tags p) ++ newline ++
  joined (personas p) ++ newline ++
  joined (industries p).

(** The body of the [for (const w of terms)] loop of [score].  The
    accumulator holds a whole number, which the additions of 5, 2 and 1
    keep exact in doubles. *)
Definition score_step (env : DateEnv) (p : item) (lower : string) (s : Z)
    (w : string) : Z :=
  if (w =? "")%string then s
  else
    let s := if includes (toLowerCase env (or_empty (title p))) w then (s + 5)%Z else s in
    let s := if includes (toLowerCase env (or_empty (summary p))) w then (s + 2)%Z else s in
    let s := if includes lower w then (s + 1)%Z else s in
    s.

Definition ms_per_year : Q := inject_Z (1000 * 60 * 60 * 24 * 365).

(** The closure [score] of the relevance branch, in a call where
    [Date.now()] returns [now]. *)
Definition score_at (env : DateEnv) (now : Z) (terms : list string) (p : item)
  : num :=
  let lower := toLowerCase env (score_text p) in
  let s := fold_left (score_step env p lower) terms 0%Z in
  let yearsOld :=
    JsNum.fdiv
      (JsNum.fsub (JsNum.of_Z now)
                  (JsDate.getTime (JsDate.new_Date env (release_date p))))
      (Some ms_per_year) in
  JsNum.fadd (JsNum.of_Z s) (JsNum.max (Some 0%Q) (JsNum.fsub (Some 2%Q) yearsOld)).


(** [(a, b) => score(b) - score(a)] in its [k]-th call: [score(b)] makes
    the call [2k] of [Date.now()] and [score(a)] the call [2k + 1]. *)
Definition by_score (env : DateEnv) (terms : list string) (k : nat) (a b : item)
  : num :=
  JsNum.sub (score_at env (Date_now_nth env (2 * k)) terms b)
            (score_at env (Date_now_nth env (2 * k + 1)) terms a).

(** [sorted]: the [switch (sort)] over a copy of the filtered array. *)
Definition sorted (env : DateEnv) (filtered : list item) (st : State.t) : list item :=
  let arr := filtered in
  if (State.sort st =? "newest")%string then JsArray.sort (by_newest env) arr
  else if (State.sort st =? "oldest")%string then JsArray.sort (by_oldest env) arr
  else if (State.sort st =? "shortest")%string then JsArray.sort (by_shortest env) arr
  else if (State.sort st =? "longest")%string then JsArray.sort (by_longest env) arr
  else
    if negb (trim env (State.q st) =? "")%string then
      let terms := split_space env (toLowerCase env (trim env (State.q st))) in
      snd (JsArray.sort_by_call (by_score env terms) 0 arr)
    else JsArray.sort (by_newest env) arr.

(** ** Pagination *)

Definition clamp (n min max : Z) : Z := Z.max min (Z.min max n).

(** [Math.max(1, Math.ceil(total / pageSize))] for a positive page size. *)
Definition pageCount (total pageSize : Z) : Z :=
  Z.max 1 (Qceiling (inject_Z total / inject_Z pageSize)).

Definition safePage (total page pageSize : Z) : Z :=
  clamp page 1 (pageCount total pageSize).

Definition pageItems {A} (sorted : list A) (page pageSize : Z) : list A :=
  let total := Z.of_nat (List.length sorted) in
  let safePage := safePage total page pageSize in
  JsArray.slice sorted ((safePage - 1) * pageSize) (safePage * pageSize).

(** ** Facet tallies *)

(** A value stored by [tally]: a count, or the string that [+ 1] makes
    of a value that is not a number. *)
Inductive tally_val :=
  | TNum (n : Z)
  | TStr (s : string).

Module JsObject.

(** The property names every object literal inherits. *)
Definition Object_prototype : list string :=
  [ "constructor"; "hasOwnProperty"; "isPrototypeOf"; "propertyIsEnumerable";
    "toLocaleString"; "toString"; "valueOf"; "__proto__";
    "__defineGetter__"; "__defineSetter__"; "__lookupGetter__"; "__lookupSetter__" ].

(** The string an inherited value converts to under [+]: the source text
    of a built-in function, or that of the prototype object. *)
Definition inherited_text (k : string) : string :=
  if (k =? "__proto__")%string then "[object Object]"
  else if (k =? "constructor")%string then "function Object() { [native code] }"
  else "function " ++ k ++ "() { [native code] }".

(** [m[k]]: the own property, else the inherited one, else [undefined].
    An inherited value is truthy and only meets [||] and [+], so it is
    given by the string it converts to. *)
Definition get (m : gmap string tally_val) (k : string) : option tally_val :=
  match m !! k with
  | Some v => Some v
  | None =>
      if JsArray.includes Object_prototype k then Some (TStr (inherited_text k))
      else None
  end.

(** [v || 0] *)
Definition or_zero (v : option tally_val) : tally_val :=
  match v with
  | Some (TNum n) => TNum n
  | Some (TStr s) => if (s =? "")%string then TNum 0 else TStr s
  | None => TNum 0
  end.

(** [v + 1] *)
Definition plus_one (v : tally_val) : tally_val :=
  match v with
  | TNum n => TNum (n + 1)
  | TStr s => TStr (s ++ "1")
  end.

(** [m[k] = v] with a primitive [v]: the [__proto__] setter ignores it. *)
Definition set (m : gmap string tally_val) (k : string) (v : tally_val)
  : gmap string tally_val :=
  if (k =? "__proto__")%string then m else <[k := v]> m.

End JsObject.

(** One turn of the loop of [tally]: [m[k] = (m[k] || 0) + 1]. *)
Definition tally_step (m : gmap string tally_val) (k : string)
  : gmap string tally_val :=
  JsObject.set m k (JsObject.plus_one (JsObject.or_zero (JsObject.get m k))).

(** [tally] of the source. *)
Definition tally (arr : list string) : gmap string tally_val :=
  fold_left tally_step arr ∅.

(** The property key of a value that may be [undefined]. *)
Definition key_of (v : option string) : string :=
  match v with
  | Some s => s
  | None => "undefined"
  end.

(** [p.content_type || "content"] *)
Definition type_label (p : item) : string :=
  match content_type p with
  | Some s => if (s =? "")%string then "content" else s
  | None => "content"
  end.

Module Facets.
Record t := {
  type : gmap string tally_val;
  year : gmap string tally_val;
  industries : gmap string tally_val;
  personas : gmap string tally_val;
  topics : gmap string tally_val;
  tags : gmap string tally_val;
  stage : gmap string tally_val
}.
End Facets.

Definition facets (env : DateEnv) (filtered : list item) : Facets.t :=
  let yrs := List.map (fun p => computeYear env (release_date p)) filtered in
  let typ := List.map type_label filtered in
  let ind := JsArray.flatMap (fun p => or_nil (industries p)) filtered in
  let per := JsArray.flatMap (fun p => or_nil (personas p)) filtered in
  let top := JsArray.flatMap (fun p => or_nil (topics p)) filtered in
  let tag := JsArray.flatMap (fun p => or_nil (tags p)) filtered in
  let stg := List.map (fun p => key_of (funnel_stage p)) filtered in
  {| Facets.type := tally typ;
     Facets.year := tally yrs;
     Facets.industries := tally ind;
     Facets.personas := tally per;
     Facets.topics := tally top;
     Facets.tags := tally tag;
     Facets.stage := tally stg |}.

(** The count a tally shows for a label, when it is one. *)
Definition tally_count (m : gmap string tally_val) (k : string) : option Z :=
  match m !! k with
  | Some (TNum n) => Some n
  | _ => None
  end.

(** ** Selection toggle *)

(** The array that [toggle] hands to the setter. *)
Definition toggle (arr : list string) (v : string) : list string :=
  if JsArray.includes arr v
  then List.filter (fun x => negb (x =? v)%string) arr
  else arr ++ [v].

(** ** The fallback catalog *)

Definition sample_zero_trust : item :=
  {| id := 1;
   slug := "zero-trust-2025";
   title := Some "Zero Trust for 2025: Practical Roadmap";
   summary := Some "A pragmatic guide to sequencing identity, device posture, and micro-segmentation for mid-market enterprises.";
   industries := Some ["Tech"; "Finance"];
   personas := Some ["CISO"; "CIO"];
   topics := Some ["Zero Trust"; "Identity"; "Micro-segmentation"];
   tags := Some ["Security"; "Architecture"];
   funnel_stage := Some "Consideration";
   release_date := Some "2025-10-15";
   version := 2;
   read_time_min := Some 11%Q;
   words := Some 2450%Z;
   content_type := Some "whitepaper";
   file_url := "https://example.com/zero-trust.pdf";
   cover_url := Some "https://picsum.photos/seed/zt/640/360";
   duration_sec := None |}.

Definition sample_ai_governance : item :=
  {| id := 2;
   slug := "ai-governance-intro";
   title := Some "AI Governance Explained (Short Video)";
   summary := Some "A 2-minute explainer on policy, model evals, and provenance.";
   industries := Some ["Tech"];
   personas := Some ["CTO"; "Head of Data"];
   topics := Some ["LLM"; "Safety"; "Provenance"];
   tags := Some ["AI"; "Video"];
   funnel_stage := Some "Awareness";
   release_date := Some "2025-08-01";
   version := 1;
   read_time_min := None;
   words := None;
   content_type := Some "video";
   file_url := "https://www.w3schools.com/html/mov_bbb.mp4";
   cover_url := Some "https://picsum.photos/seed/ai/640/360";
   duration_sec := Some 125%Z |}.

Definition sample_dev_intent : item :=
  {| id := 3;
   slug := "developer-intent-blueprint";
   title := Some "Developer Intent Blueprint";
   summary := Some "How to use public, verifiable signals to prioritize accounts without renting a DMP.";
   industries := Some ["SaaS"; "Tech"];
   personas := Some ["VP Marketing"; "Growth"];
   topics := Some ["Developer Intent"; "ABM"; "Data"];
   tags := Some ["Demand Gen"; "Signals"];
   funnel_stage := Some "Decision";
   release_date := Some "2025-09-20";
   version := 3;
   read_time_min := Some 13%Q;
   words := Some 3100%Z;
   content_type := Some "whitepaper";
   file_url := "https://example.com/dev-intent.pdf";
   cover_url := Some "https://picsum.photos/seed/dev/640/360";
   duration_sec := None |}.

(** [SAMPLE.items] as typed items. *)
Definition SAMPLE_items : list item :=
  [sample_zero_trust; sample_ai_governance; sample_dev_intent].

(** ** Catalog loader *)

(** A parsed JSON body. *)
Inductive json :=
  | JNull
  | JBool (b : bool)
  | JNum (n : Q)
  | JStr (s : string)
  | JArr (elems : list json)
  | JObj (props : list (string * json)).

Module Json.

Definition of_opt_str (k : string) (v : option string) : list (string * json) :=
  match v with Some s => [(k, JStr s)] | None => [] end.

Definition of_opt_Z (k : string) (v : option Z) : list (string * json) :=
  match v with Some z => [(k, JNum (inject_Z z))] | None => [] end.

Definition of_opt_Q (k : string) (v : option Q) : list (string * json) :=
  match v with Some x => [(k, JNum x)] | None => [] end.

Definition of_opt_labels (k : string) (v : option (list string)) : list (string * json) :=
  match v with Some l => [(k, JArr (List.map JStr l))] | None => [] end.

(** An item as the object it is in the JSON catalog. *)
Definition of_item (p : item) : json :=
  JObj ([("id", JNum (inject_Z (id p))); ("slug", JStr (slug p))]
        ++ of_opt_str "title" (title p)
        ++ of_opt_str "summary" (summary p)
        ++ of_opt_labels "industries" (industries p)
        ++ of_opt_labels "personas" (personas p)
        ++ of_opt_labels "topics" (topics p)
        ++ of_opt_labels "tags" (tags p)
        ++ of_opt_str "funnel_stage" (funnel_stage p)
        ++ of_opt_str "release_date" (release_date p)
        ++ [("version", JNum (inject_Z (version p)))]
        ++ of_opt_Q "read_time_min" (read_time_min p)
        ++ of_opt_Z "words" (words p)
        ++ of_opt_str "content_type" (content_type p)
        ++ [("file_url", JStr (file_url p))]
        ++ of_opt_str "cover_url" (cover_url p)
        ++ of_opt_Z "duration_sec" (duration_sec p)).

(** [Array.isArray(j)] *)
Definition isArray (j : json) : bool :=
  match j with JArr _ => true | _ => false end.

Definition truthy (j : json) : bool :=
  match j with
  | JNull => false
  | JBool b => b
  | JNum n => negb (Qeq_bool n 0)
  | JStr s => negb (s =? "")%string
  | JArr _ => true
  | JObj _ => true
  end.

Fixpoint lookup (k : string) (props : list (string * json)) : option json :=
  match props with
  | [] => None
  | (k', v) :: rest => if (k =? k')%string then Some v else lookup k rest
  end.

(** [j.items]: a [TypeError] on [null], the property of an object,
    [undefined] on a primitive or an array. *)
Definition get_items (j : json) : completion (option json) :=
  match j with
  | JNull => Throw "TypeError: Cannot read properties of null (reading 'items')"
  | JObj props => Normal (lookup "items" props)
  | _ => Normal None
  end.

(** [v || []] *)
Definition or_empty_array (v : option json) : json :=
  match v with
  | Some j => if truthy j then j else JArr []
  | None => JArr []
  end.

End Json.

Definition DATA_URL : string :=
  "https://pub-9d76e1d511764457a42a4f9797dbe836.r2.dev/index.json?v=20251119".

(** The constant [SAMPLE], and [SAMPLE.items]. *)
Definition SAMPLE : json :=
  JObj [("items", JArr (List.map Json.of_item SAMPLE_items))].

Definition SAMPLE_dot_items : json :=
  match SAMPLE with
  | JObj props => Json.or_empty_array (Json.lookup "items" props)
  | _ => JArr []
  end.

Module Loader.

(** What [fetch] resolves to: the [ok] flag, the status, and what
    [r.json()] settles to ([Throw] when the body does not parse). *)
Record Response := {
  ok : bool;
  status : Z;
  json_body : completion json
}.

(** The three [useState] cells the effect writes. *)
Record t := {
  items : json;
  loading : bool;
  error : string
}.

Definition initial : t := {| items := JArr []; loading := true; error := "" |}.

Definition setItems (v : json) (s : t) : t :=
  {| items := v; loading := loading s; error := error s |}.
Definition setLoading (b : bool) (s : t) : t :=
  {| items := items s; loading := b; error := error s |}.
Definition setError (e : string) (s : t) : t :=
  {| items := items s; loading := loading s; error := e |}.

(** The [try] block of [run]: the value of [arr], or the throw. *)
Definition try_block (fetched : completion Response) : completion json :=
  if negb (DATA_URL =? "")%string then
    r ← fetched;
    if negb (ok r) then Throw ("HTTP " ++ JsDate.String_of (Some (status r)))
    else
      j ← json_body r;
      if Json.isArray j then Normal j
      else v ← Json.get_items j; Normal (Json.or_empty_array v)
  else Normal SAMPLE_dot_items.

(** [run]: the state after the effect has settled on the outcome
    [fetched] of the request; [cancelled] tells that the component was
    torn down before. *)
Definition run (cancelled : bool) (fetched : completion Response) (s : t) : t :=
  let s := setLoading true s in
  let s := setError "" s in
  let s :=
    match try_block fetched with
    | Normal arr => if negb cancelled then setItems arr s else s
    | Throw e =>
        if negb cancelled
        then setError "Using fallback sample data." (setItems SAMPLE_dot_items s)
        else s
    end in
  if negb cancelled then setLoading false s else s.

End Loader.

(** ** A runtime for the examples *)

(** The string functions of the example runtime.  They are those of the
    language on text within the ASCII range: [toLowerCase] maps [A-Z] to
    [a-z], and the white space of [trim] and of the class [\s] is TAB, LF,
    VT, FF, CR and SPACE. *)
Module AsciiText.

Definition is_upper (c : ascii) : bool :=
  (65 <=? nat_of_ascii c)%nat && (nat_of_ascii c <=? 90)%nat.

Definition lower_char (c : ascii) : ascii :=
  if is_upper c then ascii_of_nat (nat_of_ascii c + 32) else c.

Fixpoint toLowerCase (s : string) : string :=
  match s with
  | EmptyString => EmptyString
  | String c t => String (lower_char c) (toLowerCase t)
  end.

Definition is_space (c : ascii) : bool :=
  let n := nat_of_ascii c in
  ((9 <=? n)%nat && (n <=? 13)%nat) || (n =? 32)%nat.

Fixpoint trimStart (s : string) : string :=
  match s with
  | EmptyString => EmptyString
  | String c t => if is_space c then trimStart t else s
  end.

Fixpoint trimEnd (s : string) : string :=
  match s with
  | EmptyString => EmptyString
  | String c t =>
      match trimEnd t with
      | EmptyString => if is_space c then EmptyString else String c EmptyString
      | t' => String c t'
      end
  end.

Definition trim (s : string) : string := trimEnd (trimStart s).

(** The pieces of [s] between maximal runs of white space.  The head of
    the result is the piece that starts at the current position; [in_sep]
    tells that the previous character was white space. *)
Fixpoint split_go (in_sep : bool) (s : string) : list string :=
  match s with
  | EmptyString => [EmptyString]
  | String c t =>
      if is_space c then
        if in_sep then split_go true t else EmptyString :: split_go true t
      else
        match split_go false t with
        | w :: ws => String c w :: ws
        | [] => [String c EmptyString]
        end
  end.

Definition split_space (s : string) : list string := split_go false s.

(** [s] has no white space character. *)
Fixpoint no_space (s : string) : bool :=
  match s with
  | EmptyString => true
  | String c t => negb (is_space c) && no_space t
  end.

End AsciiText.

(** A runtime that parses the date-only ISO form [YYYY-MM-DD] as UTC
    midnight, as the language prescribes for that form, reads every other
    string as an Invalid Date, sits in the UTC time zone, and whose clock
    does not advance. *)
Module IsoDate.

Definition digit (c : ascii) : option Z :=
  let n := nat_of_ascii c in
  if (48 <=? n)%nat && (n <=? 57)%nat then Some (Z.of_nat (n - 48)) else None.

Definition is_leap (y : Z) : bool :=
  ((y mod 4 =? 0) && negb (y mod 100 =? 0) || (y mod 400 =? 0))%Z.

Definition days_in_month (y m : Z) : Z :=
  (if m =? 2 then (if is_leap y then 29 else 28)
   else if (m =? 4) || (m =? 6) || (m =? 9) || (m =? 11) then 30
   else 31)%Z.

(** Days from 1970-01-01 to the civil date [y-m-d]. *)
Definition days_from_civil (y m d : Z) : Z :=
  (let y' := if m <=? 2 then y - 1 else y in
   let era := y' / 400 in
   let yoe := y' - era * 400 in
   let mp := if 2 <? m then m - 3 else m + 9 in
   let doy := (153 * mp + 2) / 5 + d - 1 in
   let doe := yoe * 365 + yoe / 4 - yoe / 100 + doy in
   era * 146097 + doe - 719468)%Z.

(** The civil year of a day number. *)
Definition year_of_days (z0 : Z) : Z :=
  (let z := z0 + 719468 in
   let era := z / 146097 in
   let doe := z - era * 146097 in
   let yoe := (doe - doe / 1460 + doe / 36524 - doe / 146096) / 365 in
   let y := yoe + era * 400 in
   let doy := doe - (365 * yoe + yoe / 4 - yoe / 100) in
   let mp := (5 * doy + 2) / 153 in
   if mp <? 10 then y else y + 1)%Z.

Definition ms_per_day : Z := 86400000.

Definition parse (s : string) : option Z :=
  match s with
  | String y1 (String y2 (String y3 (String y4 (String "-"
      (String m1 (String m2 (String "-" (String d1 (String d2 EmptyString))))))))) =>
      match digit y1, digit y2, digit y3, digit y4,
            digit m1, digit m2, digit d1, digit d2 with
      | Some a, Some b, Some c, Some d, Some e, Some f, Some g, Some h =>
          let y := (a * 1000 + b * 100 + c * 10 + d)%Z in
          let m := (e * 10 + f)%Z in
          let dd := (g * 10 + h)%Z in
          if ((1 <=? m) && (m <=? 12) && (1 <=? dd) && (dd <=? days_in_month y m))%Z
          then Some (days_from_civil y m dd * ms_per_day)%Z
          else None
      | _, _, _, _, _, _, _, _ => None
      end
  | _ => None
  end.

Definition year_of_ms (t : Z) : Z := year_of_days (t / ms_per_day).

(** The runtime whose clock reads [now]. *)
Definition env (now : Z) : DateEnv :=
  {| Date_parse := parse; LocalYear := year_of_ms;
     Date_now := now; Date_now_nth := fun _ => now;
     toLowerCase := AsciiText.toLowerCase;
     trim := AsciiText.trim;
     split_space := AsciiText.split_space |}.

(** 2025-11-19, the day the catalog address is stamped with. *)
Definition today : DateEnv :=
  env (days_from_civil 2025 11 19 * ms_per_day).

End IsoDate.

(** ** Vocabulary of the properties *)

(** A relation on rationals read on numbers: it holds of no [NaN]. *)
Definition num_rel (R : Q -> Q -> Prop) (a b : num) : Prop :=
  match a, b with
  | Some x, Some y => R x y
  | _, _ => False
  end.

(** The time value of an item's release date. *)
Definition release_time (env : DateEnv) (p : item) : num :=
  JsDate.getTime (JsDate.new_Date env (release_date p)).

(** The release date parses. *)
Definition dated (env : DateEnv) (p : item) : Prop :=
  exists t, JsDate.new_Date env (release_date p) = Some t.

(** [a] is at least as recent as [b]. *)
Definition newer_eq (env : DateEnv) (a b : item) : Prop :=
  num_rel Qle (release_time env b) (release_time env a).

(** [needle] occurs in [haystack]. *)
Definition occurs_in (needle haystack : string) : Prop :=
  exists a b, haystack = (a ++ needle ++ b)%string.

(** The points of one token of the term: 5 for a hit in the title, 2 for
    one in the summary, 1 for one in the text of all the fields. *)
Definition token_points (env : DateEnv) (p : item) (w : string) : Z :=
  ((if includes (toLowerCase env (or_empty (title p))) w then 5 else 0)
   + (if includes (toLowerCase env (or_empty (summary p))) w then 2 else 0)
   + (if includes (toLowerCase env (score_text p)) w then 1 else 0))%Z.







(** The tokens of a term: [q.trim().toLowerCase().split(/\s+/)]. *)
Definition terms_of (env : DateEnv) (q : string) : list string :=
  split_space env (toLowerCase env (trim env q)).

(** What some properties ask of the runtime's string functions.
    Lower-casing leaves a space or a line feed where it is and converts
    the text before and after it independently.  The language's does: its
    one rule that looks at the context of a letter, the final sigma, stops
    at the first character that is neither cased nor case-ignorable, and a
    space or a line feed is such a character.  And the pieces that
    [split(/\s+/)] returns are pieces of the string that hold neither. *)
Definition lower_cut (env : DateEnv) (c : ascii) : Prop :=
  forall a b,
    toLowerCase env (a ++ String c b)
    = (toLowerCase env a ++ String c (toLowerCase env b))%string.

Definition lower_local (env : DateEnv) : Prop :=
  toLowerCase env "" = ""
  /\ lower_cut env " "%char
  /\ lower_cut env (ascii_of_nat 10).

Definition split_pieces (env : DateEnv) : Prop :=
  forall s w, In w (split_space env s) ->
    occurs_in w s
    /\ has_char " "%char w = false
    /\ has_char (ascii_of_nat 10) w = false.


(** The orders of the read-time sorts: the read time first, the more
    recent release first among equal read times. *)
Definition shortest_order (env : DateEnv) (a b : item) : Prop :=
  num_rel Qlt (read_time a) (read_time b) \/
  (num_rel Qeq (read_time a) (read_time b) /\ newer_eq env a b).

Definition longest_order (env : DateEnv) (a b : item) : Prop :=
  num_rel Qlt (read_time b) (read_time a) \/
  (num_rel Qeq (read_time a) (read_time b) /\ newer_eq env a b).

(** The number of occurrences of a label in an array of labels. *)
Definition occurrences (k : string) (arr : list string) : Z :=
  Z.of_nat (count_occ string_dec arr k).

(** The sum of the counts a tally holds. *)
Definition add_count (_ : string) (v : tally_val) (acc : Z) : Z :=
  match v with TNum n => (n + acc)%Z | TStr _ => acc end.

Definition tally_total (m : gmap string tally_val) : Z :=
  map_fold add_count 0%Z m.

(** The count under a label, 0 when there is none. *)
Definition count_in (m : gmap string tally_val) (k : string) : Z :=
  match m !! k with
  | Some (TNum n) => n
  | _ => 0%Z
  end.

(** A label that is the name of an inherited property. *)
Definition inherited (k : string) : Prop := In k JsObject.Object_prototype.

(** What an inherited name can own in a tally: nothing, or a non-empty
    string. *)
Definition spoiled (m : gmap string tally_val) : Prop :=
  forall k v, inherited k -> m !! k = Some v -> exists s, v = TStr s /\ s <> "".

(** The tally holds positive counts only. *)
Definition counted (m : gmap string tally_val) : Prop :=
  forall k v, m !! k = Some v -> exists n, v = TNum n /\ (0 < n)%Z.

(** The item list the design document assigns to a parsed body: the body
    when it is an array, its [items] when this is an array, else empty. *)
Definition items_by_shape (j : json) : json :=
  match j with
  | JArr _ => j
  | JObj props =>
      match Json.lookup "items" props with
      | Some (JArr l) => JArr l
      | _ => JArr []
      end
  | _ => JArr []
  end.

(** A body other than [null] whose [items], when it is not an array, is
    absent or falsy. *)
Definition plain_shape (j : json) : bool :=
  match j with
  | JNull => false
  | JObj props =>
      match Json.lookup "items" props with
      | Some (JArr _) => true
      | Some v => negb (Json.truthy v)
      | None => true
      end
  | _ => true
  end.

(** The request did not deliver a body: the network failed, the status
    was not a success, or the body did not parse. *)
Definition failed (fetched : completion Loader.Response) : Prop :=
  match fetched with
  | Throw _ => True
  | Normal r =>
      Loader.ok r = false \/
      (exists e, Loader.json_body r = Throw e)
  end.

(** The selection and the item's labels, per multi-valued dimension. *)
Definition multi_dims (st : State.t) (p : item)
  : list (list string * option (list string)) :=
  [ (State.industries st, industries p); (State.personas st, personas p);
    (State.topics st, topics p); (State.tags st, tags p) ].

(** The selection and the item's value, per single-valued dimension. *)
Definition single_dims (env : DateEnv) (st : State.t) (p : item)
  : list (list string * option string) :=
  [ (State.ctype st, content_type p); (State.stage st, funnel_stage p);
    (State.year st, Some (computeYear env (release_date p))) ].

(** An empty query state with a given term and sort mode. *)
Definition query (q sort : string) : State.t :=
  {| State.q := q; State.ctype := []; State.industries := [];
     State.personas := []; State.topics := []; State.tags := [];
     State.stage := []; State.year := []; State.sort := sort;
     State.page := 1; State.pageSize := 12 |}.

(** ** Further parts of [App] *)





(** The pager: it is rendered when [pageCount > 1]; a button is disabled
    ([None]) at its end of the range, and else sets the page. *)
Definition pager_shown (total pageSize : Z) : bool :=
  (1 <? pageCount total pageSize)%Z.

Definition Prev_onClick (total page pageSize : Z) : option Z :=
  let safePage := safePage total page pageSize in
  if (safePage <=? 1)%Z then None else Some (safePage - 1)%Z.

Definition Next_onClick (total page pageSize : Z) : option Z :=
  let safePage := safePage total page pageSize in
  if (pageCount total pageSize <=? safePage)%Z then None else Some (safePage + 1)%Z.

(** The setters of the selection cells. *)
Definition setCtype (v : list string) (st : State.t) : State.t :=
  {| State.q := State.q st; State.ctype := v;
     State.industries := State.industries st; State.personas := State.personas st;
     State.topics := State.topics st; State.tags := State.tags st;
     State.stage := State.stage st; State.year := State.year st;
     State.sort := State.sort st; State.page := State.page st;
     State.pageSize := State.pageSize st |}.

Definition setIndustries (v : list string) (st : State.t) : State.t :=
  {| State.q := State.q st; State.ctype := State.ctype st;
     State.industries := v; State.personas := State.personas st;
     State.topics := State.topics st; State.tags := State.tags st;
     State.stage := State.stage st; State.year := State.year st;
     State.sort := State.sort st; State.page := State.page st;
     State.pageSize := State.pageSize st |}.

Definition setPersonas (v : list string) (st : State.t) : State.t :=
  {| State.q := State.q st; State.ctype := State.ctype st;
     State.industries := State.industries st; State.personas := v;
     State.topics := State.topics st; State.tags := State.tags st;
     State.stage := State.stage st; State.year := State.year st;
     State.sort := State.sort st; State.page := State.page st;
     State.pageSize := State.pageSize st |}.

Definition setTopics (v : list string) (st : State.t) : State.t :=
  {| State.q := State.q st; State.ctype := State.ctype st;
     State.industries := State.industries st; State.personas := State.personas st;
     State.topics := v; State.tags := State.tags st;
     State.stage := State.stage st; State.year := State.year st;
     State.sort := State.sort st; State.page := State.page st;
     State.pageSize := State.pageSize st |}.

Definition setTags (v : list string) (st : State.t) : State.t :=
  {| State.q := State.q st; State.ctype := State.ctype st;
     State.industries := State.industries st; State.personas := State.personas st;
     State.topics := State.topics st; State.tags := v;
     State.stage := State.stage st; State.year := State.year st;
     State.sort := State.sort st; State.page := State.page st;
     State.pageSize := State.pageSize st |}.

Definition setStage (v : list string) (st : State.t) : State.t :=
  {| State.q := State.q st; State.ctype := State.ctype st;
     State.industries := State.industries st; State.personas := State.personas st;
     State.topics := State.topics st; State.tags := State.tags st;
     State.stage := v; State.year := State.year st;
     State.sort := State.sort st; State.page := State.page st;
     State.pageSize := State.pageSize st |}.

Definition setYear (v : list string) (st : State.t) : State.t :=
  {| State.q := State.q st; State.ctype := State.ctype st;
     State.industries := State.industries st; State.personas := State.personas st;
     State.topics := State.topics st; State.tags := State.tags st;
     State.stage := State.stage st; State.year := v;
     State.sort := State.sort st; State.page := State.page st;
     State.pageSize := State.pageSize st |}.

(** [ActiveChips]: the chips, in the order of the [pushChips] calls; the
    component renders nothing when there is none. *)
Definition pushChips (k : string) (arr : list string)
    (chips : list (string * string)) : list (string * string) :=
  chips ++ List.map (fun v => (k, v)) arr.

Definition chips (st : State.t) : list (string * string) :=
  let chips := [] in
  let chips := pushChips "type" (State.ctype st) chips in
  let chips := pushChips "industries" (State.industries st) chips in
  let chips := pushChips "personas" (State.personas st) chips in
  let chips := pushChips "topics" (State.topics st) chips in
  let chips := pushChips "tags" (State.tags st) chips in
  let chips := pushChips "stage" (State.stage st) chips in
  let chips := pushChips "year" (State.year st) chips in
  chips.

(** The [onClick] of a chip: the state after the setter call. *)
Definition chip_onClick (st : State.t) (c : string * string) : State.t :=
  let (k, v) := c in
  if (k =? "type")%string then setCtype (toggle (State.ctype st) v) st
  else if (k =? "industries")%string then setIndustries (toggle (State.industries st) v) st
  else if (k =? "personas")%string then setPersonas (toggle (State.personas st) v) st
  else if (k =? "topics")%string then setTopics (toggle (State.topics st) v) st
  else if (k =? "tags")%string then setTags (toggle (State.tags st) v) st
  else if (k =? "stage")%string then setStage (toggle (State.stage st) v) st
  else if (k =? "year")%string then setYear (toggle (State.year st) v) st
  else st.

(** The multi-valued facet dimensions, with the selection cell, its
    setter, the item field and the tally of each. *)
Inductive multi_dim := Industries | Personas | Topics | Tags.

Definition selected_of (d : multi_dim) (st : State.t) : list string :=
  match d with
  | Industries => State.industries st
  | Personas => State.personas st
  | Topics => State.topics st
  | Tags => State.tags st
  end.

Definition set_selected (d : multi_dim) : list string -> State.t -> State.t :=
  match d with
  | Industries => setIndustries
  | Personas => setPersonas
  | Topics => setTopics
  | Tags => setTags
  end.

Definition labels_of (d : multi_dim) (p : item) : option (list string) :=
  match d with
  | Industries => industries p
  | Personas => personas p
  | Topics => topics p
  | Tags => tags p
  end.

Definition facet_of (d : multi_dim) (f : Facets.t) : gmap string tally_val :=
  match d with
  | Industries => Facets.industries f
  | Personas => Facets.personas f
  | Topics => Facets.topics f
  | Tags => Facets.tags f
  end.

(** The [onToggle] of the facet of a multi-valued dimension. *)
Definition Facet_onToggle (d : multi_dim) (v : string) (st : State.t) : State.t :=
  set_selected d (toggle (selected_of d st) v) st.

(** [p] lists the label [v]. *)
Definition has_label (d : multi_dim) (v : string) (p : item) : bool :=
  JsArray.includes (or_nil (labels_of d p)) v.

(** Two chips are the same. *)
Definition chip_eqb (a b : string * string) : bool :=
  (fst a =? fst b)%string && (snd a =? snd b)%string.

(** Two items compare as equal under a comparison function. *)
Definition ties {A} (comparefn : A -> A -> num) (x y : A) : bool :=
  JsArray.before comparefn x y && JsArray.before comparefn y x.

(** [a] was released no later than [b]. *)
Definition older_eq (env : DateEnv) (a b : item) : Prop :=
  num_rel Qle (release_time env a) (release_time env b).

(** The pages [first], [first + 1], ... ([n] of them) of a list, in a row. *)
Fixpoint pages_from {A} (sorted : list A) (pageSize : Z) (first : Z) (n : nat)
  : list A :=
  match n with
  | O => []
  | S n' => pageItems sorted first pageSize
            ++ pages_from sorted pageSize (first + 1) n'
  end.

(** A string starts like the text of a number: a digit, a sign, or the
    [N] of [NaN]. *)
Definition starts_numeric (s : string) : bool :=
  match s with
  | EmptyString => false
  | String c _ =>
      let n := nat_of_ascii c in
      ((48 <=? n)%nat && (n <=? 57)%nat) || (n =? 45)%nat || (n =? 78)%nat
  end.

(** The sort modes whose comparison function reads dates and read times
    only, and the function that [sorted] hands to [sort] in each. *)
Definition plain_modes : list string := ["newest"; "oldest"; "shortest"; "longest"].

Definition sort_comparefn (env : DateEnv) (st : State.t) : item -> item -> num :=
  if (State.sort st =? "newest")%string then by_newest env
  else if (State.sort st =? "oldest")%string then by_oldest env
  else if (State.sort st =? "shortest")%string then by_shortest env
  else by_longest env.

(** The single-valued facet dimensions, with the selection cell, its
    setter and the value of an item in each. *)
Inductive single_dim := ByType | ByStage | ByYear.

Definition single_selected (d : single_dim) (st : State.t) : list string :=
  match d with
  | ByType => State.ctype st
  | ByStage => State.stage st
  | ByYear => State.year st
  end.

Definition single_set (d : single_dim) : list string -> State.t -> State.t :=
  match d with
  | ByType => setCtype
  | ByStage => setStage
  | ByYear => setYear
  end.

Definition single_value (env : DateEnv) (d : single_dim) (p : item) : option string :=
  match d with
  | ByType => content_type p
  | ByStage => funnel_stage p
  | ByYear => Some (computeYear env (release_date p))
  end.

(** The [onToggle] of the facet of a single-valued dimension. *)
Definition single_onToggle (d : single_dim) (v : string) (st : State.t) : State.t :=
  single_set d (toggle (single_selected d st) v) st.

(** The value of [p] in the dimension is [v]. *)
Definition has_value (env : DateEnv) (d : single_dim) (v : string) (p : item) : bool :=
  JsArray.includes_opt [v] (single_value env d p).

(** * Properties *)

(** ** Strings *)

#[local] Arguments String.append !s1 s2 : simpl nomatch.

Section StringFacts.

Local Open Scope string_scope.

Lemma append_nil_r (s : string) : (s ++ "")%string = s.
Proof. induction s as [|c s IH]; simpl; [reflexivity | now rewrite IH]. Qed.

Lemma append_assoc (a b c : string) : ((a ++ b) ++ c)%string = (a ++ b ++ c)%string.
Proof. induction a as [|x a IH]; simpl; [reflexivity | now rewrite IH]. Qed.

Lemma prefix_occurs (n h : string) :
  String.prefix n h = true <-> exists b, h = (n ++ b)%string.
Proof.
  revert h. induction n as [|c n IH]; intros h; simpl.
  - destruct h; split; eauto.
  - destruct h as [|d h]; simpl.
    + split; [discriminate | intros [b Hb]; discriminate].
    + destruct (ascii_dec c d) as [->|Hne].
      * rewrite IH. split; intros [b Hb]; exists b; congruence.
      * split; [discriminate | intros [b Hb]; congruence].
Qed.

Lemma includes_occurs (h n : string) :
  includes h n = true <-> occurs_in n h.
Proof.
  unfold occurs_in. induction h as [|c h IH]; cbn [includes].
  - rewrite orb_false_r, prefix_occurs. split.
    + intros [b Hb]. exists "", b. exact Hb.
    + intros [a [b Hb]]. destruct a; [eauto | discriminate].
  - rewrite orb_true_iff, prefix_occurs, IH. split.
    + intros [[b Hb] | [a [b Hb]]].
      * exists "", b. exact Hb.
      * exists (String c a), b. simpl. now rewrite Hb.
    + intros [a [b Hb]]. destruct a as [|x a]; simpl in Hb.
      * left. eauto.
      * right. exists a, b. congruence.
Qed.

Lemma occurs_in_refl (s : string) : occurs_in s s.
Proof. exists "", "". simpl. now rewrite append_nil_r. Qed.

Lemma occurs_in_trans (n f h : string) :
  occurs_in n f -> occurs_in f h -> occurs_in n h.
Proof.
  intros [a [b ->]] [a' [b' ->]].
  exists (a' ++ a)%string, (b ++ b')%string.
  now rewrite !append_assoc.
Qed.

Lemma occurs_in_cons (c : ascii) (w s : string) :
  occurs_in w s -> occurs_in w (String c s).
Proof. intros (a & b & ->). exists (String c a), b. reflexivity. Qed.


Lemma includes_empty_needle (h : string) : includes h "" = true.
Proof. destruct h; reflexivity. Qed.

Lemma includes_empty_haystack (w : string) : w <> "" -> includes "" w = false.
Proof. destruct w; [congruence | reflexivity]. Qed.

(** A word that does not hold the character [c] and starts before a [c]
    cannot run over it. *)
Lemma prefix_before_char (w a b : string) (c : ascii) :
  has_char c w = false ->
  String.prefix w (a ++ String c b) = String.prefix w a.
Proof.
  revert w. induction a as [|x a IH]; intros w Hw.
  - destruct w as [|y w]; [reflexivity |]. cbn in *.
    destruct (ascii_dec y c) as [-> | _]; [| reflexivity].
    rewrite Ascii.eqb_refl in Hw. discriminate.
  - destruct w as [|y w]; [reflexivity |]. cbn in *.
    apply orb_false_iff in Hw as [_ Hw].
    destruct (ascii_dec y x); [apply IH, Hw | reflexivity].
Qed.

Lemma includes_across_char (w a b : string) (c : ascii) :
  has_char c w = false -> w <> "" ->
  includes (a ++ String c b) w = includes a w || includes b w.
Proof.
  intros Hw Hne. induction a as [|x a IH].
  - rewrite (includes_empty_haystack w Hne). cbn [includes String.append orb].
    destruct w as [|y w]; [congruence |]. cbn in *.
    destruct (ascii_dec y c) as [-> | _]; [| reflexivity].
    rewrite Ascii.eqb_refl in Hw. discriminate.
  - change (String x a ++ String c b) with (String x (a ++ String c b)).
    cbn [includes]. rewrite IH.
    change (String x (a ++ String c b)) with (String x a ++ String c b).
    rewrite (prefix_before_char w (String x a) b c Hw).
    now rewrite orb_assoc.
Qed.

Lemma includes_after_char (w b : string) (c : ascii) :
  has_char c w = false -> w <> "" ->
  includes (String c b) w = includes b w.
Proof.
  intros Hw Hne.
  pose proof (includes_across_char w "" b c Hw Hne) as H.
  change ("" ++ String c b) with (String c b) in H.
  now rewrite (includes_empty_haystack w Hne) in H.
Qed.

(** A word without the separating character occurs in a joined text iff
    it occurs in one of the joined strings. *)
Lemma includes_join_char (w : string) (c : ascii) (l : list string) :
  has_char c w = false -> w <> "" ->
  includes (join (String c "") l) w = existsb (fun f => includes f w) l.
Proof.
  intros Hw Hne. induction l as [|x l IH].
  - cbn. apply includes_empty_haystack, Hne.
  - destruct l as [|y l].
    + cbn. now rewrite orb_false_r.
    + change (join (String c "") (x :: y :: l))
        with (x ++ String c (join (String c "") (y :: l))).
      rewrite includes_across_char by assumption.
      rewrite IH. reflexivity.
Qed.

Lemma includes_join_fields (w : string) (l : list string) :
  has_char " "%char w = false -> has_char (ascii_of_nat 10) w = false -> w <> "" ->
  includes (join (" " ++ newline ++ " ") l) w = existsb (fun f => includes f w) l.
Proof.
  intros Hs Hn Hne. induction l as [|x l IH].
  - cbn. apply includes_empty_haystack, Hne.
  - destruct l as [|y l].
    + cbn. now rewrite orb_false_r.
    + change (join (" " ++ newline ++ " ") (x :: y :: l))
        with (x ++ String " "%char (String (ascii_of_nat 10)
                (String " "%char (join (" " ++ newline ++ " ") (y :: l))))).
      rewrite includes_across_char by assumption.
      rewrite !includes_after_char by assumption.
      rewrite IH. reflexivity.
Qed.

Lemma existsb_map {A B} (f : A -> B) (g : B -> bool) (l : list A) :
  existsb g (List.map f l) = existsb (fun x => g (f x)) l.
Proof. induction l as [|x l IH]; [reflexivity |]. cbn. now rewrite IH. Qed.

End StringFacts.

(** *** Lower-casing that does not reach across a space or a line feed *)

Section LowerFacts.

Local Open Scope string_scope.

Variable env : DateEnv.
Hypothesis Hlower : lower_local env.

Lemma lower_empty : toLowerCase env "" = "".
Proof. exact (proj1 Hlower). Qed.

Lemma lower_space (a b : string) :
  toLowerCase env (a ++ String " "%char b)
  = toLowerCase env a ++ String " "%char (toLowerCase env b).
Proof. exact (proj1 (proj2 Hlower) a b). Qed.

Lemma lower_newline (a b : string) :
  toLowerCase env (a ++ String (ascii_of_nat 10) b)
  = toLowerCase env a ++ String (ascii_of_nat 10) (toLowerCase env b).
Proof. exact (proj2 (proj2 Hlower) a b). Qed.

Lemma lower_after_space (b : string) :
  toLowerCase env (String " "%char b) = String " "%char (toLowerCase env b).
Proof.
  pose proof (lower_space "" b) as H. rewrite lower_empty in H. exact H.
Qed.

Lemma lower_after_newline (b : string) :
  toLowerCase env (String (ascii_of_nat 10) b)
  = String (ascii_of_nat 10) (toLowerCase env b).
Proof.
  pose proof (lower_newline "" b) as H. rewrite lower_empty in H. exact H.
Qed.

Lemma lower_join_space (l : list string) :
  toLowerCase env (join " " l) = join " " (List.map (toLowerCase env) l).
Proof.
  induction l as [|x l IH]; [apply lower_empty |].
  destruct l as [|y l]; [reflexivity |].
  change (join " " (x :: y :: l)) with (x ++ String " "%char (join " " (y :: l))).
  rewrite lower_space, IH. reflexivity.
Qed.

Lemma lower_join_fields (l : list string) :
  toLowerCase env (join (" " ++ newline ++ " ") l)
  = join (" " ++ newline ++ " ") (List.map (toLowerCase env) l).
Proof.
  induction l as [|x l IH]; [apply lower_empty |].
  destruct l as [|y l]; [reflexivity |].
  change (join (" " ++ newline ++ " ") (x :: y :: l))
    with (x ++ String " "%char (String (ascii_of_nat 10)
            (String " "%char (join (" " ++ newline ++ " ") (y :: l))))).
  rewrite lower_space, lower_after_newline, lower_after_space, IH. reflexivity.
Qed.

Lemma lower_joined (x : option (list string)) :
  toLowerCase env (joined x) = join " " (List.map (toLowerCase env) (or_nil x)).
Proof.
  destruct x as [l |]; cbn [joined or_nil List.map join].
  - apply lower_join_space.
  - apply lower_empty.
Qed.

(** The lower-cased text that [score] searches, field by field. *)
Lemma lower_score_text (p : item) :
  toLowerCase env (score_text p)
  = toLowerCase env (or_empty (title p)) ++ newline ++
    toLowerCase env (or_empty (summary p)) ++ newline ++
    join " " (List.map (toLowerCase env) (or_nil (topics p))) ++ newline ++
    join " " (List.map (toLowerCase env) (or_nil (tags p))) ++ newline ++
    join " " (List.map (toLowerCase env) (or_nil (personas p))) ++ newline ++
    join " " (List.map (toLowerCase env) (or_nil (industries p))).
Proof.
  unfold score_text, newline. cbn [String.append].
  rewrite !lower_newline, !lower_joined. reflexivity.
Qed.

(** A token occurs in the text that [score] builds iff it occurs in one
    of the fields that go into it. *)
Lemma score_text_fields (p : item) (w : string) :
  has_char " "%char w = false -> has_char (ascii_of_nat 10) w = false -> w <> "" ->
  includes (toLowerCase env (score_text p)) w
  = existsb (fun f => includes (toLowerCase env f) w) (fullText_fields p).
Proof.
  intros Hs Hn Hne. rewrite lower_score_text. unfold fullText_fields, newline.
  cbn [String.append]. rewrite !includes_across_char by assumption.
  rewrite !includes_join_char by assumption.
  rewrite !existsb_map, !existsb_app. cbn [existsb].
  rewrite orb_false_r. now rewrite !orb_assoc.
Qed.

(** The same for the text that the free-text filter searches. *)
Lemma fullText_fields_hit (p : item) (w : string) :
  has_char " "%char w = false -> has_char (ascii_of_nat 10) w = false -> w <> "" ->
  includes (toLowerCase env (join (" " ++ newline ++ " ") (fullText_fields p))) w
  = existsb (fun f => includes (toLowerCase env f) w) (fullText_fields p).
Proof.
  intros Hs Hn Hne. rewrite lower_join_fields, includes_join_fields by assumption.
  apply existsb_map.
Qed.


End LowerFacts.

(** *** The example runtime *)

Section AsciiFacts.

Import AsciiText.

Local Open Scope string_scope.

Lemma toLowerCase_app (a b : string) :
  AsciiText.toLowerCase (a ++ b)
  = (AsciiText.toLowerCase a ++ AsciiText.toLowerCase b)%string.
Proof. induction a as [|c a IH]; simpl; [reflexivity | now rewrite IH]. Qed.

Lemma split_go_no_space (in_sep : bool) (s : string) :
  List.Forall (fun w => no_space w = true) (split_go in_sep s).
Proof.
  revert in_sep. induction s as [|c s IH]; intros in_sep.
  - repeat constructor.
  - cbn [split_go]. destruct (is_space c) eqn:E.
    + destruct in_sep; [apply IH | constructor; [reflexivity | apply IH]].
    + specialize (IH false). destruct (split_go false s) as [|w ws].
      * repeat constructor. cbn. now rewrite E.
      * apply List.Forall_cons_iff in IH as [Hw Hws].
        constructor; [| exact Hws]. cbn. now rewrite E, Hw.
Qed.

Lemma no_space_has_char (c : ascii) (w : string) :
  is_space c = true -> no_space w = true -> has_char c w = false.
Proof.
  intros Hc. induction w as [|d w IH]; [reflexivity |]. cbn.
  intros [Hd Hw]%andb_true_iff. rewrite (IH Hw), orb_false_r.
  destruct (Ascii.eqb_spec c d) as [<- | _]; [| reflexivity].
  rewrite Hc in Hd. discriminate.
Qed.

Lemma split_go_cons (in_sep : bool) (c : ascii) (t : string) :
  split_go in_sep (String c t)
  = if is_space c then
      if in_sep then split_go true t else EmptyString :: split_go true t
    else
      match split_go false t with
      | w :: ws => String c w :: ws
      | [] => [String c EmptyString]
      end.
Proof. reflexivity. Qed.

Lemma split_go_head_prefix (s : string) :
  exists w ws b, split_go false s = w :: ws /\ s = w ++ b.
Proof.
  induction s as [|c s (w & ws & b & E & Hs)].
  - exists "", [], "". split; reflexivity.
  - rewrite split_go_cons. destruct (is_space c).
    + exists "", (split_go true s), (String c s). split; reflexivity.
    + rewrite E. exists (String c w), ws, b. split; [reflexivity |].
      cbn. now rewrite <- Hs.
Qed.

Lemma split_go_occurs (in_sep : bool) (s w : string) :
  In w (split_go in_sep s) -> occurs_in w s.
Proof.
  revert in_sep. induction s as [|c s IH]; intros in_sep.
  - cbn. intros [<- | []]. apply occurs_in_refl.
  - rewrite split_go_cons. destruct (is_space c).
    + assert (Hrest : In w (split_go true s) -> occurs_in w (String c s)).
      { intros H. apply occurs_in_cons, (IH true), H. }
      destruct in_sep; [exact Hrest |].
      intros [<- | H]; [| exact (Hrest H)]. exists "", (String c s). reflexivity.
    + destruct (split_go_head_prefix s) as (w0 & ws & b & E & Hs).
      rewrite E. intros [<- | H].
      * exists "", b. cbn. now rewrite <- Hs.
      * apply occurs_in_cons, (IH false). rewrite E. right. exact H.
Qed.

End AsciiFacts.

(** The example runtime meets what the properties ask of a runtime. *)
Lemma IsoDate_lower_local (now : Z) : lower_local (IsoDate.env now).
Proof.
  split; [reflexivity |].
  split; intros a b; cbn [toLowerCase IsoDate.env]; rewrite toLowerCase_app; reflexivity.
Qed.

Lemma IsoDate_split_pieces (now : Z) : split_pieces (IsoDate.env now).
Proof.
  intros s w Hw. cbn [split_space IsoDate.env] in Hw.
  pose proof (split_go_no_space false s) as Hsp.
  rewrite List.Forall_forall in Hsp. specialize (Hsp w Hw).
  split; [exact (split_go_occurs false s w Hw) |].
  split; apply no_space_has_char; (reflexivity || exact Hsp).
Qed.


(** ** Free-text filter *)


Lemma pass_multi_nil labels : pass_multi [] labels = true.
Proof. reflexivity. Qed.

Lemma pass_single_nil value : pass_single [] value = true.
Proof. reflexivity. Qed.

Lemma pass_year_nil env p : pass_year env [] p = true.
Proof. reflexivity. Qed.

Lemma keep_query env (q sort : string) (p : item) :
  keep env (query q sort) p = fullTextMatch env p (trim env q).
Proof.
  unfold keep, query. cbn [State.q State.ctype State.industries
    State.personas State.topics State.tags State.stage State.year].
  rewrite !pass_multi_nil, !pass_single_nil, pass_year_nil.
  cbn. now destruct (fullTextMatch env p (trim env q)).
Qed.



(** ** Facet filters *)

Lemma Array_includes_In (arr : list string) (v : string) :
  JsArray.includes arr v = true <-> In v arr.
Proof.
  unfold JsArray.includes. rewrite existsb_exists. split.
  - intros [x [Hin Hx]]. apply String.eqb_eq in Hx. now subst.
  - intros Hin. exists v. split; [exact Hin | apply String.eqb_refl].
Qed.

Lemma nonempty_true {A} (l : list A) : l <> [] -> JsArray.nonempty l = true.
Proof. destruct l; [congruence | reflexivity]. Qed.

Lemma pass_multi_all (selected : list string) (labels : option (list string)) :
  selected <> [] ->
  pass_multi selected labels = true <->
  forall v, In v selected -> In v (or_nil labels).
Proof.
  intros Hne. unfold pass_multi, JsArray.every.
  rewrite (nonempty_true _ Hne), andb_true_l, negb_involutive, forallb_forall.
  split; intros H v Hv; apply Array_includes_In, H, Hv.
Qed.


Lemma pass_year_single env selected p :
  pass_year env selected p
  = pass_single selected (Some (computeYear env (release_date p))).
Proof. reflexivity. Qed.

(** The filter callback keeps an item iff no check returns [false]. *)
Lemma keep_true_iff env st p :
  keep env st p = true <->
  fullTextMatch env p (trim env (State.q st)) = true /\
  Forall (fun d => pass_multi (fst d) (snd d) = true) (multi_dims st p) /\
  Forall (fun d => pass_single (fst d) (snd d) = true) (single_dims env st p).
Proof.
  unfold keep, multi_dims, single_dims. cbv zeta.
  repeat rewrite Forall_cons_iff. cbn [fst snd].
  rewrite <- pass_year_single.
  destruct (fullTextMatch env p _), (pass_single (State.ctype st) _),
    (pass_multi (State.industries st) _), (pass_multi (State.personas st) _),
    (pass_multi (State.topics st) _), (pass_multi (State.tags st) _),
    (pass_single (State.stage st) _), (pass_year env _ _);
    cbn; intuition (try discriminate; auto).
Qed.

Lemma filtered_In env items st p :
  In p (filtered env items st) <-> In p items /\ keep env st p = true.
Proof. unfold filtered. apply filter_In. Qed.

(** The check of a multi-valued dimension: nothing is selected, or the
    item lists every selected value. *)
Lemma pass_multi_iff (selected : list string) (labels : option (list string)) :
  pass_multi selected labels = true <->
  selected = [] \/ forall v, In v selected -> In v (or_nil labels).
Proof.
  destruct selected as [|x sel].
  - split; [auto | reflexivity].
  - rewrite pass_multi_all by discriminate. split; [auto |].
    intros [H | H]; [discriminate H | exact H].
Qed.

(** C2 (the code departs from it).  An unparseable release date makes
    [computeYear] return the four letters of [String(NaN)] and not the
    empty string: the constructor yields an Invalid Date without throwing,
    so the [catch] never runs; the year facet offers that label; and the
    item passes the year filter once it is selected. *)
Theorem computeYear_invalid_date (env : DateEnv) (p : item) :
  JsDate.new_Date env (release_date p) = None ->
  computeYear env (release_date p) = "NaN"
  /\ computeYear env (release_date p) <> ""
  /\ tally_count (Facets.year (facets env [p])) "NaN" = Some 1%Z
  /\ pass_year env ["NaN"] p = true.
Proof.
  intros Hbad. cbn [facets Facets.year List.map].
  unfold pass_year, computeYear. rewrite Hbad. cbn.
  repeat split. discriminate.
Qed.

Lemma computeYear_invalid_date_witness :
  let p := {| id := 7; slug := "undated"; title := Some "Undated";
              summary := None; industries := None; personas := None;
              topics := None; tags := None; funnel_stage := None;
              release_date := Some "not-a-date"; version := 1;
              read_time_min := None; words := None;
              content_type := Some "whitepaper";
              file_url := "https://example.com/undated.pdf";
              cover_url := None; duration_sec := None |} in
  computeYear IsoDate.today (release_date p) = "NaN"
  /\ computeYear IsoDate.today (release_date p) <> ""
  /\ tally_count (Facets.year (facets IsoDate.today [p])) "NaN" = Some 1%Z
  /\ pass_year IsoDate.today ["NaN"] p = true.
Proof.
  intros p. apply (computeYear_invalid_date IsoDate.today p). reflexivity.
Defined.

(** C3. With a non-empty selection on a multi-valued dimension
    (industries, personas, topics or tags), the dimension's check passes
    iff the item's labels, empty when the field is absent, contain every
    selected value.  The filter keeps an item of the catalog exactly when
    it passes the free-text stage, the checks of the single-valued
    dimensions, and lists, in each multi-valued dimension, every value
    selected there: so an item that has all the selected values is kept
    when the other checks pass, and with two selected values an item that
    lacks one of them is filtered out. *)
Theorem multi_valued_facet_AND (env : DateEnv) (st : State.t) (p : item)
    (selected : list string) (labels : option (list string)) :
  selected <> [] ->
  In (selected, labels) (multi_dims st p) ->
  (pass_multi selected labels = true <->
     forall v, In v selected -> In v (or_nil labels))
  /\ (labels = None -> pass_multi selected labels = false)
  /\ (forall items,
        In p (filtered env items st) <->
        In p items
        /\ fullTextMatch env p (trim env (State.q st)) = true
        /\ Forall (fun d => pass_single (fst d) (snd d) = true)
                  (single_dims env st p)
        /\ Forall (fun d => fst d = [] \/
                            forall v, In v (fst d) -> In v (or_nil (snd d)))
                  (multi_dims st p))
  /\ (keep env st p = true -> pass_multi selected labels = true)
  /\ (forall A B, selected = [A; B] ->
        ~ In A (or_nil labels) \/ ~ In B (or_nil labels) ->
        forall items, ~ In p (filtered env items st)).
Proof.
  intros Hne Hdim.
  assert (Hkeep : keep env st p = true -> pass_multi selected labels = true).
  { intros Hk. apply keep_true_iff in Hk as (_ & Hm & _).
    rewrite List.Forall_forall in Hm. exact (Hm _ Hdim). }
  split; [apply pass_multi_all, Hne |].
  split; [| split; [| split; [exact Hkeep |]]].
  - intros ->. destruct selected as [|v sel]; [congruence |]. reflexivity.
  - intros items. rewrite filtered_In, keep_true_iff.
    assert (Hm : Forall (fun d => pass_multi (fst d) (snd d) = true) (multi_dims st p)
                 <-> Forall (fun d => fst d = [] \/
                                      forall v, In v (fst d) -> In v (or_nil (snd d)))
                            (multi_dims st p)).
    { rewrite !List.Forall_forall. split; intros H d Hd; apply pass_multi_iff, H, Hd. }
    rewrite Hm. tauto.
  - intros A B -> Hlack items Hin.
    apply filtered_In in Hin as [_ Hk]. apply Hkeep in Hk.
    rewrite pass_multi_all in Hk by discriminate.
    destruct Hlack as [H | H]; apply H, Hk; simpl; auto.
Qed.

Lemma multi_valued_facet_AND_witness :
  let st := fun sel =>
    {| State.q := ""; State.ctype := []; State.industries := sel;
       State.personas := []; State.topics := []; State.tags := [];
       State.stage := []; State.year := []; State.sort := "newest";
       State.page := 1; State.pageSize := 12 |} in
  In sample_dev_intent (filtered IsoDate.today SAMPLE_items (st ["Tech"]))
  /\ filtered IsoDate.today SAMPLE_items (st ["Tech"]) = SAMPLE_items
  /\ ~ In sample_dev_intent
         (filtered IsoDate.today SAMPLE_items (st ["Tech"; "Finance"]))
  /\ filtered IsoDate.today SAMPLE_items (st ["Tech"; "Finance"])
     = [sample_zero_trust].
Proof.
  intros st. split; [| split; [reflexivity | split; [| reflexivity]]].
  - destruct (multi_valued_facet_AND IsoDate.today (st ["Tech"]) sample_dev_intent
                ["Tech"] (industries sample_dev_intent))
      as (_ & _ & Hin & _).
    + discriminate.
    + left. reflexivity.
    + apply Hin. split; [right; right; left; reflexivity |].
      split; [reflexivity |]. split.
      * repeat constructor.
      * constructor; [| repeat constructor; left; reflexivity].
        right. intros v [<- | []]. right. left. reflexivity.
  - destruct (multi_valued_facet_AND IsoDate.today (st ["Tech"; "Finance"])
                sample_dev_intent ["Tech"; "Finance"] (industries sample_dev_intent))
      as (_ & _ & _ & _ & Hout).
    + discriminate.
    + left. reflexivity.
    + apply (Hout "Tech" "Finance" eq_refl).
      right. cbn. intros [H | [H | []]]; discriminate.
Defined.



(** ** Pagination *)

Section Pagination.

Local Open Scope Z_scope.

Lemma Qceiling_div (a b : Z) :
  0 < b -> Qceiling (inject_Z a / inject_Z b) = (a + b - 1) / b.
Proof.
  intros Hb. unfold Qceiling.
  assert (Heq : (- (inject_Z a / inject_Z b) == inject_Z (- a) / inject_Z b)%Q).
  { rewrite inject_Z_opp. unfold Qdiv. ring. }
  rewrite Heq, <- Zdiv_Qdiv.
  apply Z.div_unique with (r := b - 1 - (- a) mod b).
  - left. pose proof (Z.mod_pos_bound (- a) b Hb). lia.
  - pose proof (Z.div_mod (- a) b ltac:(lia)). lia.
Qed.

Lemma pageCount_div (total S : Z) :
  1 <= S -> pageCount total S = Z.max 1 ((total + S - 1) / S).
Proof. intros HS. unfold pageCount. rewrite Qceiling_div by lia. reflexivity. Qed.

(** [pageCount] is the least positive number of pages that hold [total]. *)
Lemma pageCount_least (total S : Z) :
  1 <= S ->
  1 <= pageCount total S /\ total <= pageCount total S * S /\
  forall n, 1 <= n -> total <= n * S -> pageCount total S <= n.
Proof.
  intros HS. rewrite pageCount_div by exact HS.
  pose proof (Z.div_mod (total + S - 1) S ltac:(lia)) as Hdm.
  pose proof (Z.mod_pos_bound (total + S - 1) S ltac:(lia)) as Hmod.
  set (d := (total + S - 1) / S) in *.
  repeat split.
  - lia.
  - nia.
  - intros n Hn Hle. apply Z.max_lub; [exact Hn |].
    destruct (Z_lt_le_dec n d) as [Hlt | Hge]; [| exact Hge]. nia.
Qed.

Lemma slice_lookup {A} (arr : list A) (start end_ : Z) (i : nat) :
  0 <= start <= end_ ->
  JsArray.slice arr start end_ !! i =
  if Z.of_nat i <? end_ - start then arr !! (Z.to_nat start + i)%nat else None.
Proof.
  intros [H0 Hle]. unfold JsArray.slice.
  destruct (Z.ltb_spec start 0) as [|_]; [lia |].
  destruct (Z.ltb_spec end_ 0) as [|_]; [lia |].
  set (len := Z.of_nat (List.length arr)).
  destruct (Z.ltb_spec (Z.of_nat i) (end_ - start)) as [Hi | Hi].
  - destruct (Z_lt_le_dec (Z.of_nat (Z.to_nat start + i)) len) as [Hin | Hout].
    + rewrite lookup_take_lt by (subst len; lia).
      rewrite lookup_drop. f_equal. subst len; lia.
    + rewrite (lookup_ge_None_2 arr) by (subst len; lia).
      apply lookup_ge_None_2. rewrite length_take, length_drop. subst len; lia.
  - apply lookup_ge_None_2. rewrite length_take, length_drop. subst len; lia.
Qed.

(** C6. For a page size [S >= 1]: the page count is [max(1, ceil(total/S))],
    the least positive number of pages of [S] that hold [total] items; the
    effective page is the requested one clamped into [[1, pageCount]]; the
    visible slice holds exactly the elements of the sorted list at the
    indices from [(safePage-1)*S] up to, not including, [safePage*S]; and
    page 5 of three items at page size 1 is page 3, the last item. *)
Theorem pagination_slice {A} (sorted : list A) (page S : Z) :
  1 <= S ->
  let total := Z.of_nat (List.length sorted) in
  let pc := pageCount total S in
  let sp := safePage total page S in
  pc = Z.max 1 ((total + S - 1) / S)
  /\ (1 <= pc /\ total <= pc * S /\
      forall n, 1 <= n -> total <= n * S -> pc <= n)
  /\ (1 <= sp <= pc /\ (page < 1 -> sp = 1) /\
      (1 <= page <= pc -> sp = page) /\ (pc < page -> sp = pc))
  /\ (forall i : nat,
        pageItems sorted page S !! i =
        if Z.of_nat i <? S
        then sorted !! (Z.to_nat ((sp - 1) * S) + i)%nat
        else None)
  /\ (forall a b c, sorted = [a; b; c] -> S = 1 -> page = 5 ->
        sp = 3 /\ pageItems sorted page S = [c]).
Proof.
  intros HS total pc sp.
  pose proof (pageCount_least total S HS) as (Hpc1 & Hpc2 & Hpc3).
  fold pc in Hpc1, Hpc2, Hpc3.
  assert (Hsp : 1 <= sp <= pc) by (subst sp; unfold safePage, clamp; fold pc; lia).
  split; [apply pageCount_div, HS |].
  split; [auto |].
  split; [subst sp; unfold safePage, clamp; fold pc; lia |].
  split.
  - intros i. unfold pageItems. fold total. fold sp.
    rewrite slice_lookup by nia.
    replace (sp * S - (sp - 1) * S) with S by lia. reflexivity.
  - intros a b c -> -> ->. split; reflexivity.
Qed.

Lemma pagination_slice_witness :
  safePage 3 5 1 = 3 /\ pageItems ["first"; "second"; "third"] 5 1 = ["third"].
Proof.
  pose proof (pagination_slice ["first"; "second"; "third"] 5 1 ltac:(lia))
    as (_ & _ & _ & _ & Hscenario).
  exact (Hscenario "first" "second" "third" eq_refl eq_refl eq_refl).
Defined.

End Pagination.

(** ** Selection toggle *)

Lemma toggle_present (arr : list string) (v : string) :
  In v arr -> toggle arr v = List.filter (fun x => negb (x =? v)%string) arr.
Proof.
  intros Hin. unfold toggle.
  now rewrite (proj2 (Array_includes_In arr v) Hin).
Qed.

Lemma toggle_absent (arr : list string) (v : string) :
  ~ In v arr -> toggle arr v = arr ++ [v].
Proof.
  intros Hnin. unfold toggle.
  destruct (JsArray.includes arr v) eqn:E; [| reflexivity].
  apply Array_includes_In in E. contradiction.
Qed.

Lemma In_remove (arr : list string) (v x : string) :
  In x (List.filter (fun y => negb (y =? v)%string) arr) <-> In x arr /\ x <> v.
Proof.
  rewrite filter_In, negb_true_iff, String.eqb_neq. reflexivity.
Qed.

Lemma remove_absent (arr : list string) (v : string) :
  ~ In v arr -> List.filter (fun y => negb (y =? v)%string) arr = arr.
Proof.
  induction arr as [|x arr IH]; [reflexivity |].
  intros Hnin. cbn [List.filter].
  destruct (String.eqb_spec x v) as [-> | Hne]; cbn [negb].
  - exfalso. apply Hnin. left. reflexivity.
  - rewrite IH; [reflexivity |]. intros H. apply Hnin. right. exact H.
Qed.

(** C10. For a selection without duplicates: toggling [v] removes it when
    it is selected and appends it when it is not; the result has no
    duplicates either; and toggling twice selects the same values as
    before: the very same list when [v] was not selected, the list with
    [v] moved to the end when it was. *)
Theorem toggle_twice (arr : list string) (v : string) :
  List.NoDup arr ->
  (In v arr ->
     toggle arr v = List.filter (fun x => negb (x =? v)%string) arr
     /\ ~ In v (toggle arr v)
     /\ toggle (toggle arr v) v
        = List.filter (fun x => negb (x =? v)%string) arr ++ [v])
  /\ (~ In v arr ->
        toggle arr v = arr ++ [v] /\ toggle (toggle arr v) v = arr)
  /\ (forall x, x <> v -> In x (toggle arr v) <-> In x arr)
  /\ (forall x, In x (toggle (toggle arr v) v) <-> In x arr)
  /\ List.NoDup (toggle arr v).
Proof.
  intros Hnd.
  assert (Hpres : In v arr ->
            toggle arr v = List.filter (fun x => negb (x =? v)%string) arr
            /\ ~ In v (toggle arr v)
            /\ toggle (toggle arr v) v
               = List.filter (fun x => negb (x =? v)%string) arr ++ [v]).
  { intros Hin. rewrite (toggle_present _ _ Hin).
    assert (Hout : ~ In v (List.filter (fun x => negb (x =? v)%string) arr)).
    { rewrite In_remove. intros [_ H]. congruence. }
    repeat split; [exact Hout |]. apply toggle_absent, Hout. }
  assert (Habs : ~ In v arr ->
            toggle arr v = arr ++ [v] /\ toggle (toggle arr v) v = arr).
  { intros Hnin. rewrite (toggle_absent _ _ Hnin). split; [reflexivity |].
    rewrite toggle_present by (apply in_or_app; right; left; reflexivity).
    rewrite List.filter_app, (remove_absent _ _ Hnin). cbn [List.filter].
    rewrite String.eqb_refl. cbn [negb]. apply app_nil_r. }
  split; [exact Hpres |]. split; [exact Habs |].
  destruct (in_dec string_dec v arr) as [Hin | Hnin].
  - destruct (Hpres Hin) as (E1 & _ & E2). rewrite E2, E1.
    split; [| split].
    + intros x Hx. rewrite In_remove. tauto.
    + intros x. rewrite in_app_iff, In_remove. cbn [In]. split.
      * intros [[Hx _] | [<- | []]]; assumption.
      * intros Hx. destruct (string_dec x v) as [-> | Hne]; [auto |].
        left. split; assumption.
    + apply List.NoDup_filter, Hnd.
  - destruct (Habs Hnin) as (E1 & E2). rewrite E2, E1.
    split; [| split].
    + intros x Hx. rewrite in_app_iff. cbn [In]. split.
      * intros [Hin | [<- | []]]; [exact Hin | congruence].
      * auto.
    + tauto.
    + apply List.NoDup_app.
      * exact Hnd.
      * repeat constructor. intros [].
      * intros x Hx [<- | []]. contradiction.
Qed.

Lemma toggle_twice_witness :
  toggle (toggle ["Tech"; "Finance"] "Tech") "Tech" = ["Finance"; "Tech"]
  /\ toggle (toggle ["Tech"; "Finance"] "SaaS") "SaaS" = ["Tech"; "Finance"].
Proof.
  assert (Hnd : List.NoDup ["Tech"; "Finance"]).
  { repeat constructor; cbn; intros H; intuition discriminate. }
  split.
  - destruct (toggle_twice ["Tech"; "Finance"] "Tech" Hnd) as (Hpres & _).
    destruct Hpres as (_ & _ & E); [left; reflexivity | exact E].
  - destruct (toggle_twice ["Tech"; "Finance"] "SaaS" Hnd) as (_ & Habs & _).
    destruct Habs as (_ & E); [| exact E].
    intros [H | [H | []]]; discriminate.
Defined.

(** ** Facet tallies *)

Section Tally.

Implicit Types (m : gmap string tally_val) (k : string) (arr : list string).

Lemma tally_fold arr : tally arr = fold_left tally_step arr ∅.
Proof. reflexivity. Qed.

Lemma inherited_includes k :
  JsArray.includes JsObject.Object_prototype k = true <-> inherited k.
Proof. apply Array_includes_In. Qed.

Lemma inherited_text_nonempty k : JsObject.inherited_text k <> "".
Proof.
  unfold JsObject.inherited_text.
  destruct (k =? "__proto__")%string; [discriminate |].
  destruct (k =? "constructor")%string; discriminate.
Qed.

Lemma append_nonempty (s t : string) : t <> "" -> (s ++ t)%string <> "".
Proof. destruct s; [auto | discriminate]. Qed.

Lemma tally_step_spoiled m k : spoiled m -> spoiled (tally_step m k).
Proof.
  intros Hm k' v Hk'. unfold tally_step, JsObject.set.
  destruct (String.eqb_spec k "__proto__") as [_ | Hproto]; [apply Hm, Hk' |].
  destruct (decide (k = k')) as [<- | Hne].
  - rewrite lookup_insert_eq. intros [= <-].
    unfold JsObject.get.
    rewrite (proj2 (inherited_includes k) Hk').
    destruct (m !! k) as [v |] eqn:E.
    + destruct (Hm k v Hk' E) as (s & -> & Hs). cbn.
      destruct (String.eqb_spec s ""); [contradiction |].
      cbn. eexists. split; [reflexivity |]. apply append_nonempty. discriminate.
    + cbn. destruct (String.eqb_spec (JsObject.inherited_text k) "") as [E' | _].
      * now apply inherited_text_nonempty in E'.
      * cbn. eexists. split; [reflexivity |]. apply append_nonempty. discriminate.
  - rewrite lookup_insert_ne by exact Hne. apply Hm, Hk'.
Qed.

Lemma tally_spoiled arr m : spoiled m -> spoiled (fold_left tally_step arr m).
Proof.
  revert m. induction arr as [|k arr IH]; intros m Hm; [exact Hm |].
  cbn [fold_left]. apply IH, tally_step_spoiled, Hm.
Qed.

Lemma spoiled_empty : spoiled ∅.
Proof. intros k v _ H. rewrite lookup_empty in H. discriminate. Qed.

Lemma tally_step_plain m k :
  ~ inherited k -> counted m ->
  tally_step m k = <[k := TNum (count_in m k + 1)]> m.
Proof.
  intros Hk Hm. unfold tally_step, JsObject.set, JsObject.get, count_in.
  destruct (String.eqb_spec k "__proto__") as [-> | _].
  { exfalso. apply Hk. unfold inherited. cbn. auto 10. }
  destruct (m !! k) as [v |] eqn:E.
  - destruct (Hm k v E) as (n & -> & _). reflexivity.
  - destruct (JsArray.includes JsObject.Object_prototype k) eqn:Ei.
    + apply inherited_includes in Ei. contradiction.
    + reflexivity.
Qed.

Lemma tally_step_counted m k :
  ~ inherited k -> counted m -> counted (tally_step m k).
Proof.
  intros Hk Hm. rewrite tally_step_plain by assumption.
  intros k' v. destruct (decide (k = k')) as [<- | Hne].
  - rewrite lookup_insert_eq. intros [= <-]. eexists. split; [reflexivity |].
    unfold count_in. destruct (m !! k) as [v |] eqn:E; [| lia].
    destruct (Hm k v E) as (n & -> & Hn). lia.
  - rewrite lookup_insert_ne by exact Hne. apply Hm.
Qed.

Lemma occurrences_cons k x arr :
  occurrences k (x :: arr)
  = ((if decide (x = k) then 1 else 0) + occurrences k arr)%Z.
Proof.
  unfold occurrences. cbn [count_occ].
  destruct (string_dec x k), (decide (x = k)); try contradiction; lia.
Qed.

Lemma tally_counts_from arr m :
  Forall (fun x => ~ inherited x) arr -> counted m ->
  counted (fold_left tally_step arr m) /\
  forall k, count_in (fold_left tally_step arr m) k
            = (count_in m k + occurrences k arr)%Z.
Proof.
  revert m. induction arr as [|x arr IH]; intros m Harr Hm.
  - split; [exact Hm |]. intros k. unfold occurrences. cbn. lia.
  - apply Forall_cons in Harr as [Hx Harr]. cbn [fold_left].
    destruct (IH (tally_step m x) Harr (tally_step_counted m x Hx Hm)) as [Hc Hn].
    split; [exact Hc |]. intros k. rewrite Hn, occurrences_cons.
    rewrite tally_step_plain by assumption. unfold count_in at 1.
    destruct (decide (x = k)) as [<- | Hne].
    + rewrite lookup_insert_eq. lia.
    + rewrite lookup_insert_ne by exact Hne. fold (count_in m k). lia.
Qed.

Lemma counted_empty : counted ∅.
Proof. intros k v H. rewrite lookup_empty in H. discriminate. Qed.

(** Away from the inherited names, the tally maps each label to the
    number of its occurrences, and holds no label that does not occur. *)
Lemma tally_counts_occurrences arr k :
  Forall (fun x => ~ inherited x) arr ->
  tally_count (tally arr) k
  = if (0 <? occurrences k arr)%Z then Some (occurrences k arr) else None.
Proof.
  intros Harr.
  destruct (tally_counts_from arr ∅ Harr counted_empty) as [Hc Hn].
  specialize (Hn k). rewrite <- tally_fold in Hc, Hn.
  unfold count_in in Hn. rewrite lookup_empty in Hn.
  unfold tally_count. destruct (tally arr !! k) as [v |] eqn:E.
  - destruct (Hc k v E) as (n & -> & Hpos).
    replace (occurrences k arr) with n by lia.
    destruct (Z.ltb_spec 0 n); [reflexivity | lia].
  - destruct (Z.ltb_spec 0 (occurrences k arr)); [lia | reflexivity].
Qed.

Lemma tally_total_insert m k v :
  m !! k = None -> tally_total (<[k := v]> m) = add_count k v (tally_total m).
Proof.
  intros Hk. unfold tally_total. apply (map_fold_insert_L add_count); [| exact Hk].
  intros j1 j2 z1 z2 y _ _ _. destruct z1, z2; cbn; lia.
Qed.

Lemma tally_total_update m k n :
  tally_total (<[k := TNum (count_in m k + n)]> m) = (tally_total m + n)%Z.
Proof.
  rewrite <- (insert_delete_eq m k (TNum (count_in m k + n))).
  rewrite tally_total_insert by apply lookup_delete_eq. cbn.
  unfold count_in. destruct (m !! k) as [v |] eqn:E.
  - assert (Hm : tally_total m = add_count k v (tally_total (delete k m))).
    { rewrite <- (insert_delete_id m k v E) at 1.
      apply tally_total_insert, lookup_delete_eq. }
    rewrite Hm. destruct v; cbn; lia.
  - rewrite delete_id by exact E. lia.
Qed.

(** Away from the inherited names, the counts of a tally add up to the
    length of the tallied array. *)
Lemma tally_total_length arr :
  Forall (fun x => ~ inherited x) arr ->
  tally_total (tally arr) = Z.of_nat (List.length arr).
Proof.
  intros Harr. rewrite tally_fold.
  enough (H : forall m, counted m ->
            tally_total (fold_left tally_step arr m)
            = (tally_total m + Z.of_nat (List.length arr))%Z).
  { rewrite (H ∅ counted_empty). reflexivity. }
  induction arr as [|x arr IH]; intros m Hm; [cbn; lia |].
  apply Forall_cons in Harr as [Hx Harr]. cbn [fold_left].
  rewrite (IH Harr) by (apply tally_step_counted; assumption).
  rewrite tally_step_plain, tally_total_update by assumption.
  cbn [List.length]. lia.
Qed.

(** C7 (the code departs from it).  A label that is the name of a
    property every object inherits is never given its count: whatever the
    array, the tally holds no number under that name, although the label
    occurs: it holds the text of the inherited value with a [1] appended
    per occurrence. *)
Theorem tally_inherited_label (arr : list string) (k : string) :
  In k JsObject.Object_prototype -> In k arr ->
  tally_count (tally arr) k = None
  /\ (0 < occurrences k arr)%Z
  /\ tally ["constructor"] !! "constructor"
     = Some (TStr "function Object() { [native code] }1").
Proof.
  intros Hk Harr. split; [| split; [| reflexivity]].
  - unfold tally_count. destruct (tally arr !! k) as [v |] eqn:E; [| reflexivity].
    rewrite tally_fold in E.
    destruct (tally_spoiled arr ∅ spoiled_empty k v Hk E) as (s & -> & _).
    reflexivity.
  - unfold occurrences. apply (count_occ_In string_dec) in Harr. lia.
Qed.

Lemma tally_inherited_label_witness :
  tally_count (tally ["Security"; "constructor"]) "constructor" = None
  /\ tally_count (tally ["Security"; "constructor"]) "Security" = Some 1%Z.
Proof.
  split; [| reflexivity].
  apply (tally_inherited_label ["Security"; "constructor"] "constructor").
  - left. reflexivity.
  - right. left. reflexivity.
Defined.

(** The type tally of a filtered set whose type labels are not inherited
    names adds up to the size of the set. *)
Lemma facets_type_total env (filtered : list item) :
  Forall (fun p => ~ inherited (type_label p)) filtered ->
  tally_total (Facets.type (facets env filtered))
  = Z.of_nat (List.length filtered).
Proof.
  intros H. cbn [facets Facets.type].
  rewrite tally_total_length, length_map; [reflexivity |].
  induction H; cbn [List.map]; constructor; assumption.
Qed.

End Tally.

(** ** Catalog loader *)

Section LoaderFacts.

Import Loader.

Lemma SAMPLE_dot_items_eq :
  SAMPLE_dot_items = JArr (List.map Json.of_item SAMPLE_items).
Proof. reflexivity. Qed.

Lemma try_block_body (r : Response) (j : json) :
  ok r = true -> json_body r = Normal j -> plain_shape j = true ->
  try_block (Normal r) = Normal (items_by_shape j).
Proof.
  intros Hok Hbody Hshape. unfold try_block. cbn.
  rewrite Hok, Hbody. cbn.
  destruct j as [| b | n | s | l | props]; cbn in *; try reflexivity.
  - discriminate.
  - destruct (Json.lookup "items" props) as [v |]; [| reflexivity].
    destruct v as [| b | n | s | l | props']; cbn in *;
      try reflexivity; try discriminate.
    + destruct b; [discriminate | reflexivity].
    + destruct (Qeq_bool n 0); [reflexivity | discriminate].
    + destruct (s =? "")%string; [reflexivity | discriminate].
Qed.

Lemma try_block_failed (fetched : completion Response) :
  failed fetched -> exists e, try_block fetched = Throw e.
Proof.
  unfold failed, try_block. cbn. destruct fetched as [r | e]; [| eauto].
  intros [Hok | [e He]]; cbn.
  - rewrite Hok. cbn. eauto.
  - destruct (ok r); cbn; [| eauto]. rewrite He. cbn. eauto.
Qed.

Lemma try_block_null (r : Response) :
  ok r = true -> json_body r = Normal JNull ->
  exists e, try_block (Normal r) = Throw e.
Proof.
  intros Hok Hbody. unfold try_block. cbn. rewrite Hok, Hbody. cbn. eauto.
Qed.

(** The outcomes of a run.  When the request succeeds and the body
    parses to an array, the items are the body; to an object whose [items]
    is an array, that array; to any other body except [null] whose [items]
    is absent or falsy, the empty list.  When [fetch] rejects, the status
    is not a success, the body does not parse, or the body is [null] (whose
    [items] cannot be read), the items are the three sample items and the
    warning is set.  In every case loading ends. *)
Theorem loader_outcomes (s : t) (fetched : completion Response) :
  (forall r j, fetched = Normal r -> ok r = true -> json_body r = Normal j ->
     plain_shape j = true ->
     run false fetched s
     = {| items := items_by_shape j; loading := false; error := "" |})
  /\ (failed fetched \/
      (exists r, fetched = Normal r /\ ok r = true /\ json_body r = Normal JNull) ->
      run false fetched s
      = {| items := JArr (List.map Json.of_item SAMPLE_items);
           loading := false;
           error := "Using fallback sample data." |})
  /\ List.length SAMPLE_items = 3%nat
  /\ loading (run false fetched s) = false.
Proof.
  split; [| split; [| split]].
  - intros r j -> Hok Hbody Hshape. unfold run.
    rewrite (try_block_body r j Hok Hbody Hshape). reflexivity.
  - intros Hfail.
    assert (Hthrow : exists e, try_block fetched = Throw e).
    { destruct Hfail as [Hf | (r & -> & Hok & Hbody)].
      - apply try_block_failed, Hf.
      - apply try_block_null; assumption. }
    destruct Hthrow as [e He]. unfold run. rewrite He. reflexivity.
  - reflexivity.
  - unfold run. destruct (try_block fetched); reflexivity.
Qed.

Lemma loader_outcomes_witness :
  run false
      (Normal {| ok := true; status := 200;
                 json_body := Normal (JObj [("items", JArr [JStr "a"])]) |})
      initial
  = {| items := JArr [JStr "a"]; loading := false; error := "" |}
  /\ run false
         (Normal {| ok := false; status := 404; json_body := Throw "no body" |})
         initial
     = {| items := JArr (List.map Json.of_item SAMPLE_items);
          loading := false;
          error := "Using fallback sample data." |}.
Proof.
  split.
  - destruct (loader_outcomes initial
                (Normal {| ok := true; status := 200;
                           json_body := Normal (JObj [("items", JArr [JStr "a"])]) |}))
      as (Hbody & _).
    exact (Hbody _ _ eq_refl eq_refl eq_refl eq_refl).
  - destruct (loader_outcomes initial
                (Normal {| ok := false; status := 404;
                           json_body := Throw "no body" |}))
      as (_ & Hfail & _).
    apply Hfail. left. left. reflexivity.
Defined.

(** C9 (the code departs from it).  Two bodies that are neither an array
    nor an object exposing an [items] array, and do not yield the empty
    list.  On [null] the read of [json.items] throws before [|| []] is
    reached, and the loader ends as after a failed request, with the
    sample catalog and the warning.  On an object whose [items] is a
    non-empty string, that string is stored as the item list. *)
Theorem loader_other_shapes :
  let delivered := fun body =>
    Normal {| ok := true; status := 200; json_body := Normal body |} in
  items_by_shape JNull = JArr []
  /\ run false (delivered JNull) initial
     = {| items := SAMPLE_dot_items; loading := false;
          error := "Using fallback sample data." |}
  /\ items_by_shape (JObj [("items", JStr "abc")]) = JArr []
  /\ run false (delivered (JObj [("items", JStr "abc")])) initial
     = {| items := JStr "abc"; loading := false; error := "" |}.
Proof. cbv zeta. repeat split. Qed.

End LoaderFacts.

(** ** Sorting *)

Section SortFacts.

Context {A : Type} (comparefn : A -> A -> num).

Lemma insert_Permutation (x : A) (l : list A) :
  Permutation (x :: l) (JsArray.insert comparefn x l).
Proof.
  induction l as [|y l IH]; cbn [JsArray.insert]; [reflexivity |].
  destruct (JsArray.before comparefn x y); [reflexivity |].
  rewrite perm_swap. apply perm_skip, IH.
Qed.

Lemma sort_Permutation (l : list A) : Permutation l (JsArray.sort comparefn l).
Proof.
  induction l as [|x l IH]; cbn [JsArray.sort]; [reflexivity |].
  rewrite <- insert_Permutation. apply perm_skip, IH.
Qed.

(** The comparison function is consistent on the elements that satisfy
    [P]: there it decides a total, transitive relation [R]. *)
Variables (P : A -> Prop) (R : A -> A -> Prop).
Hypothesis R_total : forall x y, P x -> P y -> R x y \/ R y x.
Hypothesis R_trans : forall x y z, P x -> P y -> P z -> R x y -> R y z -> R x z.
Hypothesis before_R :
  forall x y, P x -> P y -> (JsArray.before comparefn x y = true <-> R x y).

Lemma insert_StronglySorted (x : A) (l : list A) :
  P x -> List.Forall P l -> StronglySorted R l ->
  StronglySorted R (JsArray.insert comparefn x l).
Proof.
  intros Hx HP Hs. induction Hs as [|y l Hs IH Hy]; cbn [JsArray.insert].
  - repeat constructor.
  - apply List.Forall_cons_iff in HP as [Py HP].
    destruct (JsArray.before comparefn x y) eqn:E.
    + apply before_R in E; [| assumption ..].
      constructor; [constructor; assumption |].
      constructor; [exact E |].
      rewrite List.Forall_forall in Hy, HP |- *. intros z Hz.
      apply (R_trans x y z); auto.
    + assert (Ryx : R y x).
      { destruct (R_total x y Hx Py) as [Rxy | Ryx]; [| exact Ryx].
        apply before_R in Rxy; [congruence | assumption ..]. }
      constructor; [apply IH, HP |].
      apply (Permutation_Forall (insert_Permutation x l)).
      constructor; assumption.
Qed.

Lemma sort_StronglySorted (l : list A) :
  List.Forall P l -> StronglySorted R (JsArray.sort comparefn l).
Proof.
  induction l as [|x l IH]; intros HP; cbn [JsArray.sort]; [constructor |].
  apply List.Forall_cons_iff in HP as [Px HP].
  apply insert_StronglySorted; [exact Px | | apply IH, HP].
  apply (Permutation_Forall (sort_Permutation l)), HP.
Qed.

End SortFacts.

(** *** Dates and read times *)

Lemma dated_time env p :
  dated env p -> exists t : Q, release_time env p = Some t.
Proof. intros [t Ht]. exists (inject_Z t). unfold release_time. now rewrite Ht. Qed.

Lemma read_time_value p : exists k, read_time p = Some k.
Proof.
  unfold read_time, JsNum.or.
  destruct (JsNum.truthy (read_time_min p)) eqn:E; [| eauto].
  destruct (read_time_min p); [eauto | discriminate].
Qed.

Lemma read_time_missing p : read_time_min p = None -> read_time p = Some 0%Q.
Proof. intros H. unfold read_time. now rewrite H. Qed.

Lemma before_newest env a b :
  dated env a -> dated env b ->
  JsArray.before (by_newest env) a b = true <-> newer_eq env a b.
Proof.
  intros [ta Ha]%dated_time [tb Hb]%dated_time.
  unfold JsArray.before, JsArray.SortCompare, by_newest, JsDate.minus, newer_eq.
  fold (release_time env a) (release_time env b). rewrite Ha, Hb. cbn [JsNum.sub num_rel].
  rewrite Qle_bool_iff. split; intros H; lra.
Qed.

Lemma newer_eq_total env a b :
  dated env a -> dated env b -> newer_eq env a b \/ newer_eq env b a.
Proof.
  intros [ta Ha]%dated_time [tb Hb]%dated_time. unfold newer_eq.
  rewrite Ha, Hb. cbn. lra.
Qed.

Lemma newer_eq_trans env a b c :
  dated env a -> dated env b -> dated env c ->
  newer_eq env a b -> newer_eq env b c -> newer_eq env a c.
Proof.
  intros [ta Ha]%dated_time [tb Hb]%dated_time [tc Hc]%dated_time.
  unfold newer_eq. rewrite Ha, Hb, Hc. cbn. lra.
Qed.

Lemma sorted_newest env (filtered : list item) st :
  State.sort st = "newest" ->
  sorted env filtered st = JsArray.sort (by_newest env) filtered.
Proof. intros H. unfold sorted. rewrite H. reflexivity. Qed.

(** In both read-time comparisons the first operand of [||] decides
    unless the read times are equal. *)
Lemma or_sub_date (ka kb : Q) (d : num) :
  JsNum.or (JsNum.sub (Some ka) (Some kb)) d
  = if Qeq_bool (ka - kb) 0 then d else Some (ka - kb)%Q.
Proof. unfold JsNum.or. cbn. destruct (Qeq_bool (ka - kb) 0); reflexivity. Qed.

Ltac read_time_keys a b :=
  let ka := fresh "ka" in let kb := fresh "kb" in
  let Ha := fresh "Hka" in let Hb := fresh "Hkb" in
  destruct (read_time_value a) as [ka Ha];
  destruct (read_time_value b) as [kb Hb];
  rewrite ?Ha, ?Hb.

Lemma before_shortest env a b :
  dated env a -> dated env b ->
  JsArray.before (by_shortest env) a b = true <-> shortest_order env a b.
Proof.
  intros [ta Ha]%dated_time [tb Hb]%dated_time.
  unfold JsArray.before, JsArray.SortCompare, by_shortest, JsDate.minus,
    shortest_order, newer_eq.
  fold (release_time env a) (release_time env b). rewrite Ha, Hb.
  read_time_keys a b. rewrite or_sub_date. cbn [JsNum.sub num_rel].
  destruct (Qeq_bool (ka - kb) 0) eqn:E.
  - apply Qeq_bool_iff in E. rewrite Qle_bool_iff. split; [intros H | intros [H | [_ H]]]; lra.
  - apply Qeq_bool_neq in E. rewrite Qle_bool_iff. split; [intros H | intros [H | [H _]]]; lra.
Qed.

Lemma before_longest env a b :
  dated env a -> dated env b ->
  JsArray.before (by_longest env) a b = true <-> longest_order env a b.
Proof.
  intros [ta Ha]%dated_time [tb Hb]%dated_time.
  unfold JsArray.before, JsArray.SortCompare, by_longest, JsDate.minus,
    longest_order, newer_eq.
  fold (release_time env a) (release_time env b). rewrite Ha, Hb.
  read_time_keys a b. rewrite or_sub_date. cbn [JsNum.sub num_rel].
  destruct (Qeq_bool (kb - ka) 0) eqn:E.
  - apply Qeq_bool_iff in E. rewrite Qle_bool_iff. split; [intros H | intros [H | [_ H]]]; lra.
  - apply Qeq_bool_neq in E. rewrite Qle_bool_iff. split; [intros H | intros [H | [H _]]]; lra.
Qed.

Ltac order_facts :=
  unfold shortest_order, longest_order, newer_eq;
  repeat match goal with
  | H : dated _ ?p |- _ =>
      let t := fresh "t" in let Ht := fresh "Ht" in
      apply dated_time in H as [t Ht]; rewrite ?Ht;
      let k := fresh "k" in let Hk := fresh "Hk" in
      destruct (read_time_value p) as [k Hk]; rewrite ?Hk
  end;
  cbn [num_rel].

Lemma shortest_order_total env a b :
  dated env a -> dated env b -> shortest_order env a b \/ shortest_order env b a.
Proof. intros Ha Hb. order_facts. lra. Qed.

Lemma longest_order_total env a b :
  dated env a -> dated env b -> longest_order env a b \/ longest_order env b a.
Proof. intros Ha Hb. order_facts. lra. Qed.

Lemma shortest_order_trans env a b c :
  dated env a -> dated env b -> dated env c ->
  shortest_order env a b -> shortest_order env b c -> shortest_order env a c.
Proof. intros Ha Hb Hc. order_facts. lra. Qed.

Lemma longest_order_trans env a b c :
  dated env a -> dated env b -> dated env c ->
  longest_order env a b -> longest_order env b c -> longest_order env a c.
Proof. intros Ha Hb Hc. order_facts. lra. Qed.

Lemma sorted_shortest env (filtered : list item) st :
  State.sort st = "shortest" ->
  sorted env filtered st = JsArray.sort (by_shortest env) filtered.
Proof. intros H. unfold sorted. rewrite H. reflexivity. Qed.

Lemma sorted_longest env (filtered : list item) st :
  State.sort st = "longest" ->
  sorted env filtered st = JsArray.sort (by_longest env) filtered.
Proof. intros H. unfold sorted. rewrite H. reflexivity. Qed.

Lemma SAMPLE_dated : List.Forall (dated IsoDate.today) SAMPLE_items.
Proof. repeat constructor; eexists; vm_compute; reflexivity. Qed.

(** C8, as the code has it.  When every release date parses, the result
    under [shortest] is the filtered items ordered by read time ascending,
    under [longest] by read time descending, an absent read time counting
    as 0; in both, among items of equal read time the more recent one
    comes first. *)
Theorem read_time_sorts (env : DateEnv) (filtered : list item) (st : State.t) :
  List.Forall (dated env) filtered ->
  (State.sort st = "shortest" ->
     Permutation filtered (sorted env filtered st) /\
     StronglySorted (shortest_order env) (sorted env filtered st))
  /\ (State.sort st = "longest" ->
        Permutation filtered (sorted env filtered st) /\
        StronglySorted (longest_order env) (sorted env filtered st))
  /\ (forall p, read_time_min p = None -> read_time p = Some 0%Q)
  /\ (forall a b, shortest_order env a b \/ longest_order env a b ->
        num_rel Qeq (read_time a) (read_time b) -> newer_eq env a b).
Proof.
  intros Hdated. split; [| split; [| split]].
  - intros Hsort. rewrite (sorted_shortest _ _ _ Hsort). split.
    + apply sort_Permutation.
    + apply (sort_StronglySorted _ (dated env)); [ | | | exact Hdated].
      * apply shortest_order_total.
      * apply shortest_order_trans.
      * apply before_shortest.
  - intros Hsort. rewrite (sorted_longest _ _ _ Hsort). split.
    + apply sort_Permutation.
    + apply (sort_StronglySorted _ (dated env)); [ | | | exact Hdated].
      * apply longest_order_total.
      * apply longest_order_trans.
      * apply before_longest.
  - apply read_time_missing.
  - intros a b Hord Heq. unfold shortest_order, longest_order in Hord.
    destruct (read_time_value a) as [ka Hka], (read_time_value b) as [kb Hkb].
    rewrite Hka, Hkb in *. cbn [num_rel] in *.
    destruct Hord as [[H | [_ H]] | [H | [_ H]]]; first [exact H | lra].
Qed.

Lemma read_time_sorts_witness :
  List.map slug (sorted IsoDate.today SAMPLE_items (query "" "shortest"))
  = ["ai-governance-intro"; "zero-trust-2025"; "developer-intent-blueprint"]
  /\ StronglySorted (shortest_order IsoDate.today)
       (sorted IsoDate.today SAMPLE_items (query "" "shortest"))
  /\ List.map slug (sorted IsoDate.today SAMPLE_items (query "" "longest"))
     = ["developer-intent-blueprint"; "zero-trust-2025"; "ai-governance-intro"]
  /\ StronglySorted (longest_order IsoDate.today)
       (sorted IsoDate.today SAMPLE_items (query "" "longest")).
Proof.
  split; [reflexivity |]. split; [| split; [reflexivity |]].
  - destruct (read_time_sorts IsoDate.today SAMPLE_items (query "" "shortest")
                SAMPLE_dated) as (Hshort & _).
    exact (proj2 (Hshort eq_refl)).
  - destruct (read_time_sorts IsoDate.today SAMPLE_items (query "" "longest")
                SAMPLE_dated) as (_ & Hlong & _).
    exact (proj2 (Hlong eq_refl)).
Defined.

(** C8 as stated fails when a release date does not parse.  Of three
    items of read time 5 released in January, on no date that parses, and
    in March, the March one is the more recent of two items of equal read
    time, yet both sorts leave the three in their order, January first:
    every comparison with the undated item is [NaN], which counts as a
    tie, and January is never compared with March. *)
Lemma read_time_unparseable_date :
  let entry := fun (n : Z) (name date : string) =>
    {| id := n; slug := name; title := Some name; summary := None;
       industries := None; personas := None; topics := None; tags := None;
       funnel_stage := None; release_date := Some date; version := 1;
       read_time_min := Some 5%Q; words := None;
       content_type := Some "whitepaper";
       file_url := "https://example.com/entry.pdf";
       cover_url := None; duration_sec := None |} in
  let a := entry 1%Z "january" "2025-01-01" in
  let u := entry 2%Z "undated" "not-a-date" in
  let c := entry 3%Z "march" "2025-03-01" in
  sorted IsoDate.today [a; u; c] (query "" "shortest") = [a; u; c]
  /\ sorted IsoDate.today [a; u; c] (query "" "longest") = [a; u; c]
  /\ num_rel Qeq (read_time a) (read_time c)
  /\ ~ newer_eq IsoDate.today a c
  /\ ~ shortest_order IsoDate.today a c
  /\ ~ longest_order IsoDate.today a c.
Proof.
  cbv zeta. split; [reflexivity |]. split; [reflexivity |].
  split; [reflexivity |].
  assert (Hold : forall x y : Q, (x <= y)%Q -> Qle_bool x y = true)
    by (intros x y; apply Qle_bool_iff).
  split; [| split].
  - intros H. apply Hold in H. vm_compute in H. discriminate H.
  - intros [H | [_ H]].
    + vm_compute in H. discriminate H.
    + apply Hold in H. vm_compute in H. discriminate H.
  - intros [H | [_ H]].
    + vm_compute in H. discriminate H.
    + apply Hold in H. vm_compute in H. discriminate H.
Qed.

(** ** Relevance *)

Section SortByCall.

Context {A : Type} (comparefn : nat -> A -> A -> num).

Lemma insert_by_call_Permutation (k : nat) (x : A) (l : list A) :
  Permutation (x :: l) (snd (JsArray.insert_by_call comparefn k x l)).
Proof.
  revert k. induction l as [|y l IH]; intros k; cbn [JsArray.insert_by_call].
  - reflexivity.
  - destruct (JsArray.before (comparefn k) x y); [reflexivity |].
    specialize (IH (S k)).
    destruct (JsArray.insert_by_call comparefn (S k) x l) as [k' r].
    cbn [snd] in *. rewrite perm_swap. apply perm_skip, IH.
Qed.

Lemma sort_by_call_Permutation (k : nat) (l : list A) :
  Permutation l (snd (JsArray.sort_by_call comparefn k l)).
Proof.
  induction l as [|x l IH]; cbn [JsArray.sort_by_call]; [reflexivity |].
  destruct (JsArray.sort_by_call comparefn k l) as [k' s]. cbn [snd] in IH.
  rewrite <- insert_by_call_Permutation. apply perm_skip, IH.
Qed.

(** When the comparison function answers the same at every call, the
    result is the one of [sort]. *)
Variable steady : A -> A -> num.
Hypothesis comparefn_steady : forall k x y, comparefn k x y = steady x y.



End SortByCall.

Section Relevance.

Variable env : DateEnv.













End Relevance.



(** ** Scenarios on the sample catalog *)

(** With no facet selected and an empty term the filter keeps everything. *)
Lemma filtered_no_filters env (items : list item) (q sort : string) :
  trim env q = "" -> filtered env items (query q sort) = items.
Proof.
  intros Hq. unfold filtered. induction items as [|p items IH]; [reflexivity |].
  cbn [List.filter]. rewrite keep_query, Hq, IH. reflexivity.
Qed.

Example sample_newest :
  List.map slug
    (sorted IsoDate.today
       (filtered IsoDate.today SAMPLE_items (query "" "newest"))
       (query "" "newest"))
  = ["zero-trust-2025"; "developer-intent-blueprint"; "ai-governance-intro"].
Proof. reflexivity. Qed.

Example sample_zero_trust_first :
  List.map slug
    (sorted IsoDate.today
       (filtered IsoDate.today SAMPLE_items (query "zero trust" "relevance"))
       (query "zero trust" "relevance"))
  = ["zero-trust-2025"]
  /\ List.map slug (sorted IsoDate.today SAMPLE_items (query "zero trust" "relevance"))
     = ["zero-trust-2025"; "developer-intent-blueprint"; "ai-governance-intro"].
Proof. split; reflexivity. Qed.

Example sample_industries :
  let st sel :=
    {| State.q := ""; State.ctype := []; State.industries := sel;
       State.personas := []; State.topics := []; State.tags := [];
       State.stage := []; State.year := []; State.sort := "newest";
       State.page := 1; State.pageSize := 12 |} in
  filtered IsoDate.today SAMPLE_items (st ["Tech"]) = SAMPLE_items
  /\ filtered IsoDate.today SAMPLE_items (st ["Tech"; "Finance"])
     = [sample_zero_trust].
Proof. split; reflexivity. Qed.

Example sample_facets :
  let f := facets IsoDate.today SAMPLE_items in
  map_to_list (Facets.type f) ≡ₚ [("whitepaper", TNum 2); ("video", TNum 1)]
  /\ tally_count (Facets.industries f) "Tech" = Some 3%Z
  /\ tally_count (Facets.year f) "2025" = Some 3%Z
  /\ tally_total (Facets.type f) = 3%Z.
Proof.
  cbv zeta. split; [| repeat split].
  vm_compute. apply perm_swap || reflexivity.
Qed.

(** * Further properties *)

(** ** Tallies and year labels *)

(** X1. On labels that are not names of inherited properties, [tally] maps
    each label that occurs to the number of its occurrences and holds no
    other label. *)
Theorem tally_counts_labels (arr : list string) (k : string) :
  List.Forall (fun x => ~ inherited x) arr ->
  (In k arr ->
     tally arr !! k = Some (TNum (occurrences k arr)) /\ (0 < occurrences k arr)%Z)
  /\ (~ In k arr -> tally arr !! k = None).
Proof.
  intros Harr.
  destruct (tally_counts_from arr ∅ Harr counted_empty) as [Hc Hn].
  specialize (Hn k). rewrite <- tally_fold in Hc, Hn.
  unfold count_in in Hn. rewrite lookup_empty in Hn.
  split.
  - intros Hin. apply (count_occ_In string_dec) in Hin.
    assert (Hpos : (0 < occurrences k arr)%Z) by (unfold occurrences; lia).
    split; [| exact Hpos].
    destruct (tally arr !! k) as [v |] eqn:E; [| lia].
    destruct (Hc k v E) as (n & -> & _). f_equal. f_equal. lia.
  - intros Hnin. apply (count_occ_not_In string_dec) in Hnin.
    destruct (tally arr !! k) as [v |] eqn:E; [| reflexivity].
    destruct (Hc k v E) as (n & -> & Hpos). unfold occurrences in Hn. lia.
Qed.

Lemma tally_counts_labels_witness :
  tally ["Tech"; "Finance"; "Tech"] !! "Tech" = Some (TNum 2)
  /\ tally ["Tech"; "Finance"; "Tech"] !! "SaaS" = None.
Proof.
  assert (H : List.Forall (fun x => ~ inherited x) ["Tech"; "Finance"; "Tech"]).
  { repeat constructor; intros Hin; cbv in Hin; intuition discriminate. }
  split.
  - destruct (tally_counts_labels ["Tech"; "Finance"; "Tech"] "Tech" H) as [Hin _].
    apply Hin. left. reflexivity.
  - destruct (tally_counts_labels ["Tech"; "Finance"; "Tech"] "SaaS" H) as [_ Hout].
    apply Hout. cbn. intuition discriminate.
Defined.

Lemma String_of_starts_numeric (n : option Z) :
  starts_numeric (JsDate.String_of n) = true.
Proof.
  destruct n as [z |]; [| reflexivity]. unfold JsDate.String_of.
  destruct z as [| p | p]; cbn [Z.to_int NilZero.string_of_int]; [reflexivity | |].
  - pose proof (Unsigned.to_uint_nonnil p) as Hp.
    destruct (Pos.to_uint p); [congruence | reflexivity ..].
  - reflexivity.
Qed.

Lemma inherited_not_numeric (k : string) : inherited k -> starts_numeric k = false.
Proof.
  unfold inherited. cbn [In JsObject.Object_prototype].
  intros H. repeat (destruct H as [<- | H]; [reflexivity |]). destruct H.
Qed.

Lemma computeYear_shape (env : DateEnv) (iso : option string) :
  starts_numeric (computeYear env iso) = true.
Proof. apply String_of_starts_numeric. Qed.

Lemma computeYear_not_inherited (env : DateEnv) (iso : option string) :
  ~ inherited (computeYear env iso).
Proof.
  intros H%inherited_not_numeric. rewrite computeYear_shape in H. discriminate.
Qed.

Lemma String_of_int_inj (a b : Z) :
  JsDate.String_of (Some a) = JsDate.String_of (Some b) -> a = b.
Proof.
  unfold JsDate.String_of. intros H. apply to_int_inj.
  assert (Hnil : forall z, Z.to_int z <> Decimal.Pos Decimal.Nil
                           /\ Z.to_int z <> Decimal.Neg Decimal.Nil).
  { intros [| p | p]; cbn; split; try discriminate;
      intros [= E]; now apply Unsigned.to_uint_nonnil in E. }
  destruct (Hnil a) as [Ha1 Ha2], (Hnil b) as [Hb1 Hb2].
  pose proof (NilZero.isi _ Ha1 Ha2) as Ia.
  pose proof (NilZero.isi _ Hb1 Hb2) as Ib.
  rewrite H in Ia. congruence.
Qed.

(** X2. [computeYear] never returns the empty string nor the name of an
    inherited property; on a date that parses it returns the decimal text
    of the local year; and two dates that parse get the same label iff
    they fall in the same local year. *)
Theorem computeYear_labels (env : DateEnv) (a b : option string) (ta tb : Z) :
  JsDate.new_Date env a = Some ta ->
  JsDate.new_Date env b = Some tb ->
  computeYear env a = JsDate.String_of (Some (LocalYear env ta))
  /\ (computeYear env a = computeYear env b <-> LocalYear env ta = LocalYear env tb)
  /\ (forall iso, computeYear env iso <> "" /\ ~ inherited (computeYear env iso)).
Proof.
  intros Ha Hb.
  assert (Ea : computeYear env a = JsDate.String_of (Some (LocalYear env ta))).
  { unfold computeYear. rewrite Ha. reflexivity. }
  assert (Eb : computeYear env b = JsDate.String_of (Some (LocalYear env tb))).
  { unfold computeYear. rewrite Hb. reflexivity. }
  split; [exact Ea |]. split.
  - rewrite Ea, Eb. split; [apply String_of_int_inj | intros ->; reflexivity].
  - intros iso. split; [| apply computeYear_not_inherited].
    intros E. pose proof (computeYear_shape env iso) as H.
    rewrite E in H. discriminate.
Qed.

Lemma computeYear_labels_witness :
  computeYear IsoDate.today (Some "2024-12-31") = "2024"
  /\ computeYear IsoDate.today (Some "2024-12-31")
     <> computeYear IsoDate.today (Some "2025-01-01").
Proof.
  destruct (computeYear_labels IsoDate.today (Some "2024-12-31") (Some "2025-01-01")
              _ _ eq_refl eq_refl) as (E & Hiff & _).
  split; [exact E |].
  intros H. apply Hiff in H. vm_compute in H. discriminate.
Defined.

(** X3. When no type, stage or multi-valued label of the filtered items is
    the name of an inherited property, the counts of the type, stage and
    year tallies each add up to the number of filtered items, and those of
    a multi-valued facet to the number of labels its items list. *)
Theorem facets_totals (env : DateEnv) (filtered : list item) :
  List.Forall (fun p => ~ inherited (type_label p)) filtered ->
  List.Forall (fun p => ~ inherited (key_of (funnel_stage p))) filtered ->
  (forall d p v, In p filtered -> In v (or_nil (labels_of d p)) -> ~ inherited v) ->
  let f := facets env filtered in
  tally_total (Facets.type f) = Z.of_nat (List.length filtered)
  /\ tally_total (Facets.stage f) = Z.of_nat (List.length filtered)
  /\ tally_total (Facets.year f) = Z.of_nat (List.length filtered)
  /\ (forall d, tally_total (facet_of d f)
                = Z.of_nat (List.length
                    (JsArray.flatMap (fun p => or_nil (labels_of d p)) filtered))).
Proof.
  intros Htype Hstage Hmulti f.
  assert (Hmap : forall (g : item -> string),
            List.Forall (fun p => ~ inherited (g p)) filtered ->
            tally_total (tally (List.map g filtered))
            = Z.of_nat (List.length filtered)).
  { intros g Hg. rewrite tally_total_length, length_map; [reflexivity |].
    apply List.Forall_map. exact Hg. }
  split; [apply (Hmap type_label Htype) |].
  split; [apply (Hmap (fun p => key_of (funnel_stage p)) Hstage) |].
  split.
  - apply (Hmap (fun p => computeYear env (release_date p))).
    apply List.Forall_forall. intros p _. apply computeYear_not_inherited.
  - intros d.
    assert (Hd : tally_total
                   (tally (JsArray.flatMap (fun p => or_nil (labels_of d p)) filtered))
                 = Z.of_nat (List.length
                     (JsArray.flatMap (fun p => or_nil (labels_of d p)) filtered))).
    { apply tally_total_length. apply List.Forall_forall. intros v Hv.
      unfold JsArray.flatMap in Hv. apply in_concat in Hv as (l & Hl & Hv).
      apply in_map_iff in Hl as (p & <- & Hp). exact (Hmulti d p v Hp Hv). }
    destruct d; exact Hd.
Qed.

Lemma SAMPLE_plain_labels (d : multi_dim) (p : item) (v : string) :
  In p SAMPLE_items -> In v (or_nil (labels_of d p)) -> ~ inherited v.
Proof.
  intros Hp Hv Hk.
  cbn in Hp. destruct Hp as [<- | [<- | [<- | []]]];
    destruct d; cbn in Hv;
    repeat (destruct Hv as [<- | Hv]; [cbv in Hk; intuition discriminate |]);
    destruct Hv.
Qed.

Lemma facets_totals_witness :
  tally_total (Facets.type (facets IsoDate.today SAMPLE_items)) = 3%Z
  /\ tally_total (Facets.topics (facets IsoDate.today SAMPLE_items)) = 9%Z.
Proof.
  assert (H1 : List.Forall (fun p => ~ inherited (type_label p)) SAMPLE_items).
  { repeat constructor; intros Hin; cbv in Hin; intuition discriminate. }
  assert (H2 : List.Forall (fun p => ~ inherited (key_of (funnel_stage p))) SAMPLE_items).
  { repeat constructor; intros Hin; cbv in Hin; intuition discriminate. }
  destruct (facets_totals IsoDate.today SAMPLE_items H1 H2 SAMPLE_plain_labels)
    as (Ht & _ & _ & Hm).
  split; [exact Ht | exact (Hm Topics)].
Defined.

(** ** Facet selection and the filtered set *)

Lemma keep_andb env st p :
  keep env st p =
  fullTextMatch env p (trim env (State.q st))
  && pass_single (State.ctype st) (content_type p)
  && pass_multi (State.industries st) (industries p)
  && pass_multi (State.personas st) (personas p)
  && pass_multi (State.topics st) (topics p)
  && pass_multi (State.tags st) (tags p)
  && pass_single (State.stage st) (funnel_stage p)
  && pass_year env (State.year st) p.
Proof.
  unfold keep. cbv zeta.
  destruct (fullTextMatch env p _); [| reflexivity].
  destruct (pass_single (State.ctype st) _); [| reflexivity].
  destruct (pass_multi (State.industries st) _); [| reflexivity].
  destruct (pass_multi (State.personas st) _); [| reflexivity].
  destruct (pass_multi (State.topics st) _); [| reflexivity].
  destruct (pass_multi (State.tags st) _); [| reflexivity].
  destruct (pass_single (State.stage st) _); [| reflexivity].
  destruct (pass_year env _ _); reflexivity.
Qed.

Lemma pass_multi_snoc (sel : list string) (labels : option (list string)) (v : string) :
  pass_multi (sel ++ [v]) labels
  = pass_multi sel labels && JsArray.includes (or_nil labels) v.
Proof.
  unfold pass_multi, JsArray.every. rewrite forallb_app. cbn [forallb].
  rewrite andb_true_r.
  destruct sel as [|x sel]; cbn [JsArray.nonempty List.length List.app Nat.eqb negb andb].
  - cbn. now rewrite negb_involutive.
  - now rewrite !negb_involutive.
Qed.

Lemma pass_multi_fewer (sel sel' : list string) (labels : option (list string)) :
  (forall x, In x sel' -> In x sel) ->
  pass_multi sel labels = true -> pass_multi sel' labels = true.
Proof.
  intros Hincl H. destruct sel' as [|y sel']; [reflexivity |].
  assert (Hne : sel <> []).
  { intros ->. apply (Hincl y). left. reflexivity. }
  rewrite pass_multi_all in H by exact Hne.
  apply pass_multi_all; [discriminate |]. intros x Hx. apply H, Hincl, Hx.
Qed.

Lemma filter_andb {A} (f g : A -> bool) (l : list A) :
  List.filter (fun x => f x && g x) l = List.filter g (List.filter f l).
Proof.
  induction l as [|x l IH]; [reflexivity |]. cbn [List.filter].
  destruct (f x); cbn [andb List.filter]; [| exact IH].
  destruct (g x); now rewrite IH.
Qed.

Lemma keep_select env (d : multi_dim) (v : string) st p :
  keep env (set_selected d (selected_of d st ++ [v]) st) p
  = keep env st p && has_label d v p.
Proof.
  rewrite !keep_andb. unfold has_label.
  destruct d;
    cbn [set_selected selected_of labels_of setIndustries setPersonas setTopics
           setTags State.q State.ctype State.industries State.personas
           State.topics State.tags State.stage State.year];
    unfold pass_year; rewrite pass_multi_snoc;
    repeat match goal with
    | |- context [fullTextMatch ?e ?a ?b] => destruct (fullTextMatch e a b)
    | |- context [pass_single ?a ?b] => destruct (pass_single a b)
    | |- context [pass_multi ?a ?b] => destruct (pass_multi a b)
    | |- context [JsArray.includes ?a ?b] => destruct (JsArray.includes a b)
    | |- context [JsArray.nonempty ?a] => destruct (JsArray.nonempty a)
    end; reflexivity.
Qed.

Lemma keep_deselect env (d : multi_dim) (sel' : list string) st p :
  (forall x, In x sel' -> In x (selected_of d st)) ->
  keep env st p = true -> keep env (set_selected d sel' st) p = true.
Proof.
  intros Hincl. rewrite !keep_andb, !andb_true_iff.
  intros (((((((H1 & H2) & H3) & H4) & H5) & H6) & H7) & H8).
  destruct d;
    cbn [set_selected selected_of setIndustries setPersonas setTopics
           setTags State.q State.ctype State.industries State.personas
           State.topics State.tags State.stage State.year] in *;
    repeat split; try assumption; eapply pass_multi_fewer; eassumption.
Qed.

Lemma filtered_select env (items : list item) st (d : multi_dim) (v : string) :
  ~ In v (selected_of d st) ->
  filtered env items (Facet_onToggle d v st)
  = List.filter (has_label d v) (filtered env items st).
Proof.
  intros Hnin. unfold Facet_onToggle, filtered.
  rewrite (toggle_absent _ _ Hnin), <- filter_andb.
  apply List.filter_ext. intros p. apply keep_select.
Qed.

(** X4. Selecting a value that is not yet selected on a multi-valued facet
    keeps, of the filtered items, exactly those that list the value, in
    the same order; deselecting a selected value drops no filtered item. *)
Theorem facet_toggle_refines (env : DateEnv) (items : list item)
    (st : State.t) (d : multi_dim) (v : string) :
  (~ In v (selected_of d st) ->
     filtered env items (Facet_onToggle d v st)
     = List.filter (has_label d v) (filtered env items st))
  /\ (In v (selected_of d st) ->
        forall p, In p (filtered env items st) ->
                  In p (filtered env items (Facet_onToggle d v st))).
Proof.
  split; [apply filtered_select |].
  unfold Facet_onToggle, filtered.
  - intros Hin p. rewrite (toggle_present _ _ Hin), !filter_In.
    intros [Hp Hk]. split; [exact Hp |].
    apply keep_deselect; [| exact Hk].
    intros x Hx. apply In_remove in Hx. tauto.
Qed.

Lemma facet_toggle_refines_witness :
  List.map slug
    (filtered IsoDate.today SAMPLE_items
       (Facet_onToggle Industries "Finance"
          (Facet_onToggle Industries "Tech" (query "" "newest"))))
  = ["zero-trust-2025"].
Proof.
  destruct (facet_toggle_refines IsoDate.today SAMPLE_items
              (Facet_onToggle Industries "Tech" (query "" "newest"))
              Industries "Finance") as [Hsel _].
  rewrite Hsel; [reflexivity |].
  cbn. intros [H | []]. discriminate.
Defined.

Lemma facet_of_tally env (d : multi_dim) (F : list item) :
  facet_of d (facets env F)
  = tally (JsArray.flatMap (fun p => or_nil (labels_of d p)) F).
Proof. destruct d; reflexivity. Qed.

Lemma occurrences_app k (l1 l2 : list string) :
  occurrences k (l1 ++ l2) = (occurrences k l1 + occurrences k l2)%Z.
Proof. unfold occurrences. rewrite count_occ_app. lia. Qed.

Lemma occurrences_NoDup k (l : list string) :
  List.NoDup l ->
  occurrences k l = if JsArray.includes l k then 1%Z else 0%Z.
Proof.
  intros Hnd. unfold occurrences.
  destruct (JsArray.includes l k) eqn:E.
  - apply Array_includes_In in E.
    pose proof (proj1 (List.NoDup_count_occ string_dec l) Hnd k) as Hle.
    apply (count_occ_In string_dec) in E. lia.
  - assert (Hnin : ~ In k l).
    { intros H. apply Array_includes_In in H. congruence. }
    apply (count_occ_not_In string_dec) in Hnin. lia.
Qed.

Lemma occurrences_flatMap (d : multi_dim) (v : string) (F : list item) :
  (forall p, In p F -> List.NoDup (or_nil (labels_of d p))) ->
  occurrences v (JsArray.flatMap (fun p => or_nil (labels_of d p)) F)
  = Z.of_nat (List.length (List.filter (has_label d v) F)).
Proof.
  unfold JsArray.flatMap. induction F as [|p F IH]; intros Hnd; [reflexivity |].
  cbn [List.map List.concat List.filter].
  rewrite occurrences_app, IH by (intros q Hq; apply Hnd; right; exact Hq).
  rewrite occurrences_NoDup by (apply Hnd; left; reflexivity).
  unfold has_label at 2.
  destruct (JsArray.includes (or_nil (labels_of d p)) v); cbn [List.length]; lia.
Qed.

(** X5. For a value not yet selected on a multi-valued facet, the count
    the facet shows is the number of results after selecting it, and the
    value is absent from the facet exactly when that number is 0; this
    when no filtered item lists a label twice and no label is the name of
    an inherited property. *)
Theorem facet_count_predicts (env : DateEnv) (items : list item)
    (st : State.t) (d : multi_dim) (v : string) :
  ~ In v (selected_of d st) ->
  (forall p, In p (filtered env items st) -> List.NoDup (or_nil (labels_of d p))) ->
  (forall p x, In p (filtered env items st) -> In x (or_nil (labels_of d p)) ->
               ~ inherited x) ->
  let n := Z.of_nat (List.length (filtered env items (Facet_onToggle d v st))) in
  tally_count (facet_of d (facets env (filtered env items st))) v
  = if (0 <? n)%Z then Some n else None.
Proof.
  intros Hnin Hnd Hplain n. subst n.
  rewrite (filtered_select env items st d v Hnin).
  rewrite facet_of_tally, tally_counts_occurrences.
  - now rewrite occurrences_flatMap by exact Hnd.
  - apply List.Forall_forall. intros x Hx. unfold JsArray.flatMap in Hx.
    apply in_concat in Hx as (l & Hl & Hx).
    apply in_map_iff in Hl as (p & <- & Hp). exact (Hplain p x Hp Hx).
Qed.

Lemma SAMPLE_NoDup_labels (d : multi_dim) (p : item) :
  In p SAMPLE_items -> List.NoDup (or_nil (labels_of d p)).
Proof.
  intros Hp. cbn in Hp. destruct Hp as [<- | [<- | [<- | []]]];
    destruct d; cbn; repeat constructor; cbn; intuition discriminate.
Qed.

Lemma facet_count_predicts_witness :
  tally_count (Facets.industries (facets IsoDate.today SAMPLE_items)) "Finance"
  = Some 1%Z.
Proof.
  pose proof (facet_count_predicts IsoDate.today SAMPLE_items
                (query "" "newest") Industries "Finance") as H.
  cbv zeta in H. rewrite (filtered_no_filters IsoDate.today SAMPLE_items "" "newest")
    in H by reflexivity.
  etransitivity; [| reflexivity].
  apply H; [intros [] | apply SAMPLE_NoDup_labels
           | intros p x; apply SAMPLE_plain_labels].
Defined.



(** ** Sorting, whatever the mode *)

(** X7. In every sort mode, for every term and whether or not the release
    dates parse, the sorted list is a rearrangement of the filtered one:
    no item is lost or repeated and the total is the filtered count.  A
    mode other than the four named ones sorts as [relevance] does. *)
Theorem sorted_rearranges (env : DateEnv) (F : list item) (st : State.t) :
  Permutation F (sorted env F st)
  /\ List.length (sorted env F st) = List.length F
  /\ (forall p, In p (sorted env F st) <-> In p F)
  /\ (forall st', State.q st' = State.q st ->
        State.sort st <> "newest" -> State.sort st <> "oldest" ->
        State.sort st <> "shortest" -> State.sort st <> "longest" ->
        State.sort st' = "relevance" ->
        sorted env F st = sorted env F st').
Proof.
  assert (Hperm : Permutation F (sorted env F st)).
  { unfold sorted.
    repeat match goal with |- context [if ?b then _ else _] => destruct b end;
      apply sort_Permutation || apply sort_by_call_Permutation. }
  split; [exact Hperm |]. split; [symmetry; apply Permutation_length, Hperm |].
  split.
  - intros p. split; apply Permutation_in; [symmetry |]; exact Hperm.
  - intros st' Hq H1 H2 H3 H4 Hrel. unfold sorted. rewrite Hrel, Hq.
    apply String.eqb_neq in H1, H2, H3, H4. rewrite H1, H2, H3, H4. reflexivity.
Qed.

Lemma before_oldest env a b :
  dated env a -> dated env b ->
  JsArray.before (by_oldest env) a b = true <-> older_eq env a b.
Proof.
  intros [ta Ha]%dated_time [tb Hb]%dated_time.
  unfold JsArray.before, JsArray.SortCompare, by_oldest, JsDate.minus, older_eq.
  fold (release_time env a) (release_time env b). rewrite Ha, Hb.
  cbn [JsNum.sub num_rel]. rewrite Qle_bool_iff. split; intros H; lra.
Qed.

Lemma older_eq_total env a b :
  dated env a -> dated env b -> older_eq env a b \/ older_eq env b a.
Proof.
  intros [ta Ha]%dated_time [tb Hb]%dated_time. unfold older_eq.
  rewrite Ha, Hb. cbn. lra.
Qed.

Lemma older_eq_trans env a b c :
  dated env a -> dated env b -> dated env c ->
  older_eq env a b -> older_eq env b c -> older_eq env a c.
Proof.
  intros [ta Ha]%dated_time [tb Hb]%dated_time [tc Hc]%dated_time.
  unfold older_eq. rewrite Ha, Hb, Hc. cbn. lra.
Qed.

Lemma sorted_oldest env (F : list item) st :
  State.sort st = "oldest" ->
  sorted env F st = JsArray.sort (by_oldest env) F.
Proof. intros H. unfold sorted. rewrite H. reflexivity. Qed.

(** X8. When every release date parses, [newest] orders the filtered
    items by release time descending and [oldest] ascending: each item is
    at least as recent (resp. as old) as every item after it. *)
Theorem date_sorts (env : DateEnv) (F : list item) (st : State.t) :
  List.Forall (dated env) F ->
  (State.sort st = "newest" -> StronglySorted (newer_eq env) (sorted env F st))
  /\ (State.sort st = "oldest" -> StronglySorted (older_eq env) (sorted env F st)).
Proof.
  intros Hdated. split; intros Hsort.
  - rewrite (sorted_newest _ _ _ Hsort).
    apply (sort_StronglySorted _ (dated env)); [ | | | exact Hdated].
    + apply newer_eq_total.
    + apply newer_eq_trans.
    + apply before_newest.
  - rewrite (sorted_oldest _ _ _ Hsort).
    apply (sort_StronglySorted _ (dated env)); [ | | | exact Hdated].
    + apply older_eq_total.
    + apply older_eq_trans.
    + apply before_oldest.
Qed.

Lemma date_sorts_witness :
  StronglySorted (older_eq IsoDate.today)
    (sorted IsoDate.today SAMPLE_items (query "" "oldest"))
  /\ List.map slug (sorted IsoDate.today SAMPLE_items (query "" "oldest"))
     = ["ai-governance-intro"; "developer-intent-blueprint"; "zero-trust-2025"].
Proof.
  destruct (date_sorts IsoDate.today SAMPLE_items (query "" "oldest") SAMPLE_dated)
    as [_ Hold].
  split; [exact (Hold eq_refl) | reflexivity].
Defined.

(** *** Stability *)

Section Stability.

Context {A : Type} (comparefn : A -> A -> num) (P : A -> Prop).

Hypothesis before_trans :
  forall x y z, P x -> P y -> P z ->
    JsArray.before comparefn x y = true ->
    JsArray.before comparefn y z = true ->
    JsArray.before comparefn x z = true.

Lemma insert_ties (x a : A) (l : list A) :
  P x -> P a -> List.Forall P l ->
  List.filter (ties comparefn x) (JsArray.insert comparefn a l)
  = List.filter (ties comparefn x) (a :: l).
Proof.
  intros Px Pa Pl. induction l as [|y l IH]; [reflexivity |].
  apply List.Forall_cons_iff in Pl as [Py Pl]. cbn [JsArray.insert].
  destruct (JsArray.before comparefn a y) eqn:E; [reflexivity |].
  cbn [List.filter]. rewrite (IH Pl). cbn [List.filter].
  destruct (ties comparefn x y) eqn:Ty, (ties comparefn x a) eqn:Ta;
    try reflexivity.
  unfold ties in Ty, Ta.
  apply andb_true_iff in Ty as [Hxy _], Ta as [_ Hax].
  rewrite (before_trans a x y Pa Px Py Hax Hxy) in E. discriminate.
Qed.

Lemma sort_ties (x : A) (l : list A) :
  P x -> List.Forall P l ->
  List.filter (ties comparefn x) (JsArray.sort comparefn l)
  = List.filter (ties comparefn x) l.
Proof.
  intros Px Pl. induction l as [|a l IH]; [reflexivity |].
  apply List.Forall_cons_iff in Pl as [Pa Pl]. cbn [JsArray.sort].
  rewrite insert_ties; [| assumption ..
    | apply (Permutation_Forall (sort_Permutation comparefn l)), Pl].
  cbn [List.filter]. now rewrite (IH Pl).
Qed.

End Stability.

Lemma sorted_comparefn env (F : list item) st :
  In (State.sort st) plain_modes ->
  sorted env F st = JsArray.sort (sort_comparefn env st) F.
Proof.
  intros Hmode. unfold sorted, sort_comparefn.
  destruct (String.eqb_spec (State.sort st) "newest") as [_ | H1]; [reflexivity |].
  destruct (String.eqb_spec (State.sort st) "oldest") as [_ | H2]; [reflexivity |].
  destruct (String.eqb_spec (State.sort st) "shortest") as [_ | H3]; [reflexivity |].
  destruct (String.eqb_spec (State.sort st) "longest") as [_ | H4]; [reflexivity |].
  exfalso. cbn in Hmode. destruct Hmode as [E | [E | [E | [E | []]]]]; congruence.
Qed.

Lemma comparefn_trans env st a b c :
  dated env a -> dated env b -> dated env c ->
  JsArray.before (sort_comparefn env st) a b = true ->
  JsArray.before (sort_comparefn env st) b c = true ->
  JsArray.before (sort_comparefn env st) a c = true.
Proof.
  intros Ha Hb Hc. unfold sort_comparefn.
  destruct (State.sort st =? "newest")%string.
  { rewrite !before_newest by assumption. now apply newer_eq_trans. }
  destruct (State.sort st =? "oldest")%string.
  { rewrite !before_oldest by assumption. now apply older_eq_trans. }
  destruct (State.sort st =? "shortest")%string.
  { rewrite !before_shortest by assumption. now apply shortest_order_trans. }
  rewrite !before_longest by assumption. now apply longest_order_trans.
Qed.

(** X9. When every release date parses, the sort is stable in the modes
    [newest], [oldest], [shortest] and [longest]: the items that compare
    as equal to a given item come in the sorted list in the order they
    have in the filtered list. *)
Theorem sorted_stable (env : DateEnv) (F : list item) (st : State.t) (x : item) :
  In (State.sort st) plain_modes ->
  List.Forall (dated env) F -> dated env x ->
  List.filter (ties (sort_comparefn env st) x) (sorted env F st)
  = List.filter (ties (sort_comparefn env st) x) F.
Proof.
  intros Hmode HF Hx. rewrite sorted_comparefn by exact Hmode.
  apply (sort_ties _ (dated env)); [| assumption ..].
  intros a b c. apply comparefn_trans.
Qed.

Lemma sorted_stable_witness :
  let twin := {| id := 4; slug := "zero-trust-twin";
                 title := Some "Zero Trust, again"; summary := None;
                 industries := None; personas := None; topics := None;
                 tags := None; funnel_stage := None;
                 release_date := Some "2025-10-15"; version := 1;
                 read_time_min := None; words := None;
                 content_type := Some "slide";
                 file_url := "https://example.com/twin.pdf";
                 cover_url := None; duration_sec := None |} in
  List.map slug
    (List.filter (ties (sort_comparefn IsoDate.today (query "" "newest")) twin)
       (sorted IsoDate.today (sample_ai_governance :: twin :: SAMPLE_items)
          (query "" "newest")))
  = ["zero-trust-twin"; "zero-trust-2025"].
Proof.
  intros twin.
  rewrite (sorted_stable IsoDate.today (sample_ai_governance :: twin :: SAMPLE_items)
             (query "" "newest") twin).
  - reflexivity.
  - left. reflexivity.
  - repeat constructor; eexists; vm_compute; reflexivity.
  - eexists; vm_compute; reflexivity.
Defined.

(** ** Pages *)

Section Pages.

Local Open Scope Z_scope.

Lemma slice_take_drop {A} (arr : list A) (start end_ : Z) :
  0 <= start <= end_ ->
  JsArray.slice arr start end_
  = take (Z.to_nat (end_ - start)) (drop (Z.to_nat start) arr).
Proof.
  intros H. apply list_eq. intros i. rewrite slice_lookup by exact H.
  destruct (Z.ltb_spec (Z.of_nat i) (end_ - start)) as [Hi | Hi].
  - rewrite lookup_take_lt by lia. now rewrite lookup_drop.
  - symmetry. apply lookup_take_ge. lia.
Qed.

Lemma safePage_in_range (total page S : Z) :
  1 <= S -> 1 <= page <= pageCount total S -> safePage total page S = page.
Proof. intros HS Hp. unfold safePage, clamp. lia. Qed.

Lemma pageItems_take_drop {A} (sorted : list A) (page S : Z) :
  1 <= S ->
  let sp := safePage (Z.of_nat (List.length sorted)) page S in
  pageItems sorted page S
  = take (Z.to_nat S) (drop (Z.to_nat ((sp - 1) * S)) sorted).
Proof.
  intros HS sp. unfold pageItems. fold sp.
  pose proof (pageCount_least (Z.of_nat (List.length sorted)) S HS) as (H1 & _).
  assert (1 <= sp) by (subst sp; unfold safePage, clamp; lia).
  rewrite slice_take_drop by nia. do 2 f_equal. lia.
Qed.

Lemma pages_from_drop {A} (sorted : list A) (S : Z) (n : nat) (j : Z) :
  1 <= S -> 0 <= j ->
  j + Z.of_nat n = pageCount (Z.of_nat (List.length sorted)) S ->
  pages_from sorted S (j + 1) n = drop (Z.to_nat (j * S)) sorted.
Proof.
  intros HS. revert j. induction n as [|n IH]; intros j Hj Hsum.
  - cbn [pages_from]. symmetry. apply drop_ge.
    pose proof (pageCount_least (Z.of_nat (List.length sorted)) S HS) as (_ & H & _).
    rewrite <- Hsum in H. nia.
  - cbn [pages_from]. rewrite pageItems_take_drop by exact HS.
    rewrite safePage_in_range by lia.
    replace (j + 1 + 1) with ((j + 1) + 1) by lia.
    rewrite IH by lia.
    replace (j + 1 - 1) with j by lia.
    replace (Z.to_nat ((j + 1) * S)) with (Z.to_nat (j * S) + Z.to_nat S)%nat by nia.
    rewrite <- drop_drop. apply take_drop.
Qed.

(** X10. For a page size of at least 1, the pages 1 to [pageCount] laid
    end to end are the sorted list: every item is on exactly one page, in
    order. *)
Theorem pages_partition {A} (sorted : list A) (S : Z) :
  1 <= S ->
  pages_from sorted S 1
    (Z.to_nat (pageCount (Z.of_nat (List.length sorted)) S))
  = sorted.
Proof.
  intros HS.
  pose proof (pageCount_least (Z.of_nat (List.length sorted)) S HS) as (H1 & _).
  rewrite (pages_from_drop sorted S _ 0 HS) by lia. reflexivity.
Qed.

Lemma pages_partition_witness :
  pageItems ["a"; "b"; "c"; "d"; "e"] 1 2
  ++ pageItems ["a"; "b"; "c"; "d"; "e"] 2 2
  ++ pageItems ["a"; "b"; "c"; "d"; "e"] 3 2 ++ []
  = ["a"; "b"; "c"; "d"; "e"].
Proof. exact (pages_partition ["a"; "b"; "c"; "d"; "e"] 2 ltac:(lia)). Defined.

(** X11. For a page size [S >= 1], a page never holds more than [S] items,
    every page before the last holds exactly [S], and the page shown for
    any requested page number is not empty unless the list is. *)
Theorem page_length {A} (sorted : list A) (page S : Z) :
  1 <= S ->
  let total := Z.of_nat (List.length sorted) in
  let len := Z.of_nat (List.length (pageItems sorted page S)) in
  len <= S
  /\ (safePage total page S < pageCount total S -> len = S)
  /\ (sorted <> [] -> 0 < len)
  /\ (sorted = [] -> pageItems sorted page S = []).
Proof.
  intros HS total len. subst len.
  pose proof (pageCount_least total S HS) as (H1 & H2 & H3).
  assert (Hsp : 1 <= safePage total page S <= pageCount total S)
    by (unfold safePage, clamp; lia).
  rewrite pageItems_take_drop by exact HS. cbv zeta. fold total.
  rewrite length_take, length_drop. fold total.
  set (sp := safePage total page S) in *. set (pc := pageCount total S) in *.
  split; [lia |]. split; [| split].
  - intros Hlt. specialize (H3 (pc - 1)).
    assert (sp * S <= total) by (destruct (Z_le_gt_dec 1 (pc - 1)); nia).
    subst total. nia.
  - intros Hne. assert (0 < total) by (subst total; destruct sorted; [congruence | cbn; lia]).
    assert ((sp - 1) * S < total).
    { destruct (Z.eq_dec pc 1) as [E | E]; [nia |].
      specialize (H3 (pc - 1) ltac:(lia)). nia. }
    subst total. nia.
  - intros ->. now rewrite drop_nil, take_nil.
Qed.

Lemma page_length_witness :
  0 < Z.of_nat (List.length (pageItems ["a"; "b"; "c"; "d"; "e"] 9 2)) <= 2.
Proof.
  pose proof (page_length ["a"; "b"; "c"; "d"; "e"] 9 2 ltac:(lia)) as (Hle & _ & Hpos & _).
  split; [apply Hpos; discriminate | exact Hle].
Defined.

(** X12. For a page size of at least 1: the pager is shown iff there are
    more items than fit one page; [Prev] is disabled exactly on page 1 and
    [Next] exactly on the last page; and an enabled button sets a page one
    step away that lies in [[1, pageCount]], so it is shown as it is. *)
Theorem pager_in_range (total page S : Z) :
  1 <= S ->
  let sp := safePage total page S in
  let pc := pageCount total S in
  (pager_shown total S = true <-> S < total)
  /\ (Prev_onClick total page S = None <-> sp = 1)
  /\ (Next_onClick total page S = None <-> sp = pc)
  /\ (forall p', Prev_onClick total page S = Some p' ->
        p' = sp - 1 /\ safePage total p' S = p')
  /\ (forall p', Next_onClick total page S = Some p' ->
        p' = sp + 1 /\ safePage total p' S = p').
Proof.
  intros HS sp pc.
  pose proof (pageCount_least total S HS) as (H1 & H2 & H3). fold pc in H1, H2, H3.
  assert (Hsp : 1 <= sp <= pc) by (subst sp; unfold safePage, clamp; fold pc; lia).
  split; [| split; [| split; [| split]]].
  - unfold pager_shown. fold pc. rewrite Z.ltb_lt. split.
    + intros Hpc. destruct (Z_lt_le_dec S total) as [Hlt | Hge]; [exact Hlt |].
      specialize (H3 1 ltac:(lia) ltac:(lia)). lia.
    + intros Hlt. destruct (Z_lt_le_dec 1 pc); [assumption | nia].
  - unfold Prev_onClick. fold sp. destruct (Z.leb_spec sp 1) as [Hle | Hgt]; split;
      intros H; try reflexivity; try discriminate; lia.
  - unfold Next_onClick. fold sp pc. destruct (Z.leb_spec pc sp) as [Hle | Hgt]; split;
      intros H; try reflexivity; try discriminate; lia.
  - intros p'. unfold Prev_onClick. fold sp.
    destruct (Z.leb_spec sp 1); [discriminate |]. intros [= <-].
    split; [reflexivity |]. unfold safePage, clamp. fold pc. lia.
  - intros p'. unfold Next_onClick. fold sp pc.
    destruct (Z.leb_spec pc sp); [discriminate |]. intros [= <-].
    split; [reflexivity |]. unfold safePage, clamp. fold pc. lia.
Qed.

Lemma pager_in_range_witness :
  pager_shown 25 12 = true
  /\ Prev_onClick 25 1 12 = None
  /\ Next_onClick 25 3 12 = None
  /\ Next_onClick 25 1 12 = Some 2.
Proof.
  pose proof (pager_in_range 25 1 12 ltac:(lia)) as (Hshown & Hprev & _).
  split; [apply Hshown; lia |]. split; [apply Hprev; reflexivity |].
  split; reflexivity.
Defined.

End Pages.

(** ** The loader and the previous state *)

Section LoaderFrame.

Import Loader.

(** X13. A run that is not cancelled overwrites all three cells: its
    result does not depend on the state before, it ends with loading off,
    and with the warning cleared unless the sample catalog was put in.  A
    cancelled run leaves the items as they were and loading on. *)
Theorem loader_frame (fetched : completion Response) (s s' : t) :
  run false fetched s = run false fetched s'
  /\ loading (run false fetched s) = false
  /\ (error (run false fetched s) = ""
      \/ (error (run false fetched s) = "Using fallback sample data."
          /\ items (run false fetched s) = SAMPLE_dot_items))
  /\ run true fetched s = {| items := items s; loading := true; error := "" |}.
Proof.
  unfold run. destruct (try_block fetched) as [arr | e]; cbn;
    (split; [reflexivity | split; [reflexivity | split; [auto | reflexivity]]]).
Qed.

(** X14. After a run that is not cancelled the items are an array, except
    when the request succeeded with an object body whose [items] is truthy
    and not an array: that value is stored as it is. *)
Theorem loader_items_array (fetched : completion Response) (s : t) :
  Json.isArray (items (run false fetched s)) = true
  \/ exists r props v,
       fetched = Normal r /\ ok r = true
       /\ json_body r = Normal (JObj props)
       /\ Json.lookup "items" props = Some v
       /\ Json.truthy v = true /\ Json.isArray v = false
       /\ items (run false fetched s) = v.
Proof.
  unfold run, try_block. cbn.
  destruct fetched as [r | e]; cbn; [| left; reflexivity].
  destruct (ok r) eqn:Hok; cbn; [| left; reflexivity].
  destruct (json_body r) as [j | e] eqn:Hbody; cbn; [| left; reflexivity].
  destruct j as [| b | n | str | l | props]; cbn; try (left; reflexivity).
  destruct (Json.lookup "items" props) as [v |] eqn:Hv; cbn; [| left; reflexivity].
  destruct (Json.truthy v) eqn:Ht; cbn; [| left; reflexivity].
  destruct (Json.isArray v) eqn:Ha; [left; reflexivity |].
  right. exists r, props, v. auto 10.
Qed.

Example loader_items_string :
  items (run false
           (Normal {| ok := true; status := 200;
                      json_body := Normal (JObj [("items", JStr "soon")]) |})
           initial)
  = JStr "soon".
Proof. reflexivity. Qed.

End LoaderFrame.

(** ** Active chips *)

Lemma In_chip (k k' v : string) (l : list string) :
  In (k, v) (List.map (fun x => (k', x)) l) <-> k = k' /\ In v l.
Proof.
  rewrite in_map_iff. split.
  - intros (x & [= <- <-] & Hx). auto.
  - intros [<- Hv]. eauto.
Qed.

Lemma filter_chips_other (k k' v : string) (l : list string) :
  k <> k' ->
  List.filter (fun c => negb (chip_eqb c (k, v))) (List.map (fun x => (k', x)) l)
  = List.map (fun x => (k', x)) l.
Proof.
  intros Hne. induction l as [|x l IH]; [reflexivity |].
  cbn [List.map List.filter]. unfold chip_eqb at 1. cbn [fst snd].
  destruct (String.eqb_spec k' k) as [E | _]; [congruence |].
  cbn [andb negb]. now rewrite IH.
Qed.

Lemma filter_chips_same (k v : string) (l : list string) :
  List.filter (fun c => negb (chip_eqb c (k, v))) (List.map (fun x => (k, x)) l)
  = List.map (fun x => (k, x)) (List.filter (fun x => negb (x =? v)%string) l).
Proof.
  induction l as [|x l IH]; [reflexivity |].
  cbn [List.map List.filter]. unfold chip_eqb at 1. cbn [fst snd].
  rewrite String.eqb_refl, andb_true_l.
  destruct (x =? v)%string; cbn [negb List.map]; now rewrite IH.
Qed.

Ltac chip_click :=
  cbn [chip_onClick String.eqb Ascii.eqb Bool.eqb];
  rewrite toggle_present by assumption;
  unfold chips, pushChips;
  cbn [setCtype setIndustries setPersonas setTopics setTags setStage setYear
         State.ctype State.industries State.personas State.topics State.tags
         State.stage State.year List.app];
  rewrite !List.filter_app, filter_chips_same;
  rewrite !filter_chips_other by discriminate;
  reflexivity.

(** X15. There is a chip per selected value, none when nothing is
    selected, and clicking a chip removes that chip and no other. *)
Theorem chips_click (st : State.t) :
  (chips st = [] <->
     State.ctype st = [] /\ State.industries st = [] /\ State.personas st = []
     /\ State.topics st = [] /\ State.tags st = [] /\ State.stage st = []
     /\ State.year st = [])
  /\ List.length (chips st)
     = (List.length (State.ctype st) + List.length (State.industries st)
        + List.length (State.personas st) + List.length (State.topics st)
        + List.length (State.tags st) + List.length (State.stage st)
        + List.length (State.year st))%nat
  /\ (forall c, In c (chips st) ->
        chips (chip_onClick st c)
        = List.filter (fun c' => negb (chip_eqb c' c)) (chips st)).
Proof.
  assert (Hlen : List.length (chips st)
     = (List.length (State.ctype st) + List.length (State.industries st)
        + List.length (State.personas st) + List.length (State.topics st)
        + List.length (State.tags st) + List.length (State.stage st)
        + List.length (State.year st))%nat).
  { unfold chips, pushChips. cbn [List.app].
    rewrite !length_app, !length_map. lia. }
  split; [| split; [exact Hlen |]].
  - split.
    + intros E. rewrite E in Hlen. cbn in Hlen.
      repeat split;
        match goal with |- ?l = [] => destruct l; [reflexivity | cbn in Hlen; lia] end.
    + intros (E1 & E2 & E3 & E4 & E5 & E6 & E7).
      unfold chips, pushChips. now rewrite E1, E2, E3, E4, E5, E6, E7.
  - intros [k v] Hin. unfold chips, pushChips in Hin. cbn [List.app] in Hin.
    rewrite !in_app_iff, !In_chip in Hin.
    destruct Hin as [[[[[[[-> Hv] | [-> Hv]] | [-> Hv]] | [-> Hv]] | [-> Hv]]
                       | [-> Hv]] | [-> Hv]]; chip_click.
Qed.

Lemma chips_click_witness :
  let st := setYear ["2025"] (setIndustries ["Tech"; "Finance"] (query "" "newest")) in
  chips (chip_onClick st ("industries", "Tech"))
  = [("industries", "Finance"); ("year", "2025")].
Proof.
  intros st. destruct (chips_click st) as (_ & _ & Hclick).
  rewrite Hclick; [reflexivity |]. left. reflexivity.
Defined.

(** ** Minutes on a card *)

Section Minutes.

Local Open Scope Z_scope.







End Minutes.

(** ** Recency bonus *)




(** ** Filtering twice, filtering with nothing *)

(** X19. With a term that is empty once trimmed and no facet value
    selected, the filter keeps the whole catalog, whatever the sort mode
    and page; and in any state, filtering the filtered items again changes
    nothing. *)
Theorem filtered_neutral (env : DateEnv) (items : list item) (st : State.t) :
  (trim env (State.q st) = "" ->
   State.ctype st = [] -> State.industries st = [] -> State.personas st = [] ->
   State.topics st = [] -> State.tags st = [] -> State.stage st = [] ->
   State.year st = [] ->
   filtered env items st = items)
  /\ filtered env (filtered env items st) st = filtered env items st.
Proof.
  split.
  - intros Hq H1 H2 H3 H4 H5 H6 H7. unfold filtered.
    rewrite (List.filter_ext _ (fun _ => true)).
    + induction items as [|p items IH]; [reflexivity |].
      cbn [List.filter]. now rewrite IH.
    + intros p. rewrite keep_andb, Hq, H1, H2, H3, H4, H5, H6, H7. reflexivity.
  - unfold filtered. rewrite <- filter_andb. apply List.filter_ext.
    intros p. now destruct (keep env st p).
Qed.

Lemma filtered_neutral_witness :
  filtered IsoDate.today SAMPLE_items (query "   " "longest") = SAMPLE_items.
Proof.
  destruct (filtered_neutral IsoDate.today SAMPLE_items (query "   " "longest"))
    as [Hall _].
  apply Hall; reflexivity.
Defined.


(** ** The free-text filter and the score *)

(** X20. The free-text filter and the relevance score agree, for a runtime
    whose lower-casing does not reach across a space or a line feed and
    whose tokens are pieces of the term that hold neither: an item the
    filter keeps for a non-empty trimmed term scores at least one point
    for every non-empty token of the term; and for a term that is a
    single token the filter keeps exactly the items that the third check
    of the score hits. *)
Theorem kept_items_score (env : DateEnv) (p : item) (q : string) :
  lower_local env -> split_pieces env ->
  trim env q <> "" ->
  let term := toLowerCase env (trim env q) in
  (fullTextMatch env p (trim env q) = true ->
     forall w, In w (terms_of env q) -> w <> "" ->
       includes (toLowerCase env (score_text p)) w = true
       /\ (1 <= token_points env p w)%Z)
  /\ (terms_of env q = [term] ->
        fullTextMatch env p (trim env q)
        = includes (toLowerCase env (score_text p)) term).
Proof.
  intros Hlower Hsplit Hne term.
  assert (Hone : forall w, has_char " "%char w = false ->
            has_char (ascii_of_nat 10) w = false -> w <> "" ->
            includes (toLowerCase env (join (" " ++ newline ++ " ") (fullText_fields p))) w
            = includes (toLowerCase env (score_text p)) w).
  { intros w Hs Hn Hw.
    rewrite (score_text_fields env Hlower p w Hs Hn Hw).
    apply (fullText_fields_hit env Hlower p w Hs Hn Hw). }
  assert (Hmatch : fullTextMatch env p (trim env q)
            = includes (toLowerCase env (join (" " ++ newline ++ " ") (fullText_fields p)))
                       term).
  { unfold fullTextMatch.
    destruct (String.eqb_spec (trim env q) ""); [contradiction | reflexivity]. }
  split.
  - intros Hkeep w Hw Hw'.
    destruct (Hsplit _ _ Hw) as (Hocc & Hs & Hn).
    assert (Hhit : includes (toLowerCase env (score_text p)) w = true).
    { rewrite <- (Hone w Hs Hn Hw'). apply includes_occurs.
      rewrite Hmatch in Hkeep. apply includes_occurs in Hkeep.
      eapply occurs_in_trans; [exact Hocc | exact Hkeep]. }
    split; [exact Hhit |]. unfold token_points. rewrite Hhit.
    destruct (includes (toLowerCase env (or_empty (title p))) w),
      (includes (toLowerCase env (or_empty (summary p))) w); lia.
  - intros Hterms. rewrite Hmatch.
    destruct (string_dec term "") as [E | Hterm].
    + rewrite E, !includes_empty_needle. reflexivity.
    + assert (Hin : In term (terms_of env q)) by (rewrite Hterms; left; reflexivity).
      destruct (Hsplit _ _ Hin) as (_ & Hs & Hn).
      apply Hone; assumption.
Qed.

Lemma kept_items_score_witness :
  (1 <= token_points IsoDate.today sample_dev_intent "intent")%Z
  /\ (1 <= token_points IsoDate.today sample_dev_intent "blueprint")%Z
  /\ fullTextMatch IsoDate.today sample_ai_governance (trim IsoDate.today " Provenance")
     = includes (toLowerCase IsoDate.today (score_text sample_ai_governance)) "provenance".
Proof.
  destruct (kept_items_score IsoDate.today sample_dev_intent " Intent blueprint "
              (IsoDate_lower_local _) (IsoDate_split_pieces _))
    as [Hkept _]; [discriminate |].
  split; [| split].
  - apply (Hkept eq_refl "intent"); [vm_compute; auto | discriminate].
  - apply (Hkept eq_refl "blueprint"); [vm_compute; auto | discriminate].
  - destruct (kept_items_score IsoDate.today sample_ai_governance " Provenance"
                (IsoDate_lower_local _) (IsoDate_split_pieces _))
      as [_ Hone]; [discriminate |].
    apply Hone. reflexivity.
Defined.

(** ** Single-valued facets *)

Lemma pass_single_snoc (sel : list string) (value : option string) (v : string) :
  pass_single (sel ++ [v]) value
  = if JsArray.nonempty sel
    then pass_single sel value || JsArray.includes_opt [v] value
    else JsArray.includes_opt [v] value.
Proof.
  unfold pass_single. destruct value as [s |]; cbn [JsArray.includes_opt].
  - unfold JsArray.includes. rewrite existsb_app. cbn [existsb].
    rewrite orb_false_r.
    destruct sel as [|x sel]; cbn [JsArray.nonempty List.length List.app Nat.eqb negb andb];
      [cbn; now rewrite negb_involutive |].
    now rewrite !negb_involutive.
  - destruct sel; reflexivity.
Qed.

Lemma keep_single_select env (d : single_dim) (v : string) st p :
  single_selected d st = [] ->
  keep env (single_set d (single_selected d st ++ [v]) st) p
  = keep env st p && has_value env d v p.
Proof.
  intros Hnil. rewrite !keep_andb. unfold has_value.
  destruct d;
    cbn [single_set single_selected single_value setCtype setStage setYear
           State.q State.ctype State.industries State.personas
           State.topics State.tags State.stage State.year] in *;
    rewrite ?pass_year_single, Hnil, pass_single_snoc; cbn [JsArray.nonempty List.length Nat.eqb negb];
    rewrite pass_single_nil;
    repeat match goal with
    | |- context [fullTextMatch ?e ?a ?b] => destruct (fullTextMatch e a b)
    | |- context [pass_single ?a ?b] => destruct (pass_single a b)
    | |- context [pass_multi ?a ?b] => destruct (pass_multi a b)
    | |- context [JsArray.includes_opt ?a ?b] => destruct (JsArray.includes_opt a b)
    end; reflexivity.
Qed.

Lemma keep_single_widen env (d : single_dim) (v : string) st p :
  keep env st p = true ->
  JsArray.nonempty (single_selected d st) = true ->
  keep env (single_set d (single_selected d st ++ [v]) st) p = true.
Proof.
  rewrite !keep_andb, !andb_true_iff.
  intros (((((((H1 & H2) & H3) & H4) & H5) & H6) & H7) & H8) Hne.
  destruct d;
    cbn [single_set single_selected setCtype setStage setYear
           State.q State.ctype State.industries State.personas
           State.topics State.tags State.stage State.year] in *;
    rewrite ?pass_year_single in *; rewrite pass_single_snoc, Hne;
    repeat split; try assumption; apply orb_true_iff; left; assumption.
Qed.

(** X21. On a single-valued facet (type, stage, year): selecting a value
    while none is selected keeps, of the filtered items, exactly those
    with that value; selecting a further value while some are selected
    drops no filtered item. *)
Theorem single_toggle_widens (env : DateEnv) (items : list item)
    (st : State.t) (d : single_dim) (v : string) :
  (single_selected d st = [] ->
     filtered env items (single_onToggle d v st)
     = List.filter (has_value env d v) (filtered env items st))
  /\ (single_selected d st <> [] -> ~ In v (single_selected d st) ->
        forall p, In p (filtered env items st) ->
                  In p (filtered env items (single_onToggle d v st))).
Proof.
  unfold single_onToggle, filtered. split.
  - intros Hnil. rewrite toggle_absent by (rewrite Hnil; intros []).
    rewrite <- filter_andb. apply List.filter_ext. intros p.
    apply keep_single_select, Hnil.
  - intros Hne Hnin p. rewrite (toggle_absent _ _ Hnin), !filter_In.
    intros [Hp Hk]. split; [exact Hp |].
    apply keep_single_widen; [exact Hk | apply nonempty_true, Hne].
Qed.

Lemma single_toggle_widens_witness :
  List.map slug
    (filtered IsoDate.today SAMPLE_items
       (single_onToggle ByType "video" (query "" "newest")))
  = ["ai-governance-intro"]
  /\ List.length
       (filtered IsoDate.today SAMPLE_items
          (single_onToggle ByType "whitepaper"
             (single_onToggle ByType "video" (query "" "newest"))))
     = 3%nat.
Proof.
  split; [| reflexivity].
  destruct (single_toggle_widens IsoDate.today SAMPLE_items (query "" "newest")
              ByType "video") as [Hfirst _].
  rewrite Hfirst; reflexivity.
Defined.
